(** * Ecosystem visualisation script (visualize_ecosystem.py)

    A shallow embedding of the loader, the statistics reporter and the two
    chart renderers of [visualize_ecosystem.py].

    - A pandas DataFrame is a [table]: the ordered column names and the rows,
      each row holding one integer per column, in column order.
    - The Python process is a [world]: the file system, a heap of DataFrame
      objects (the script passes [data] by reference), pyplot's stack of open
      figures, the lines printed on standard output, and the wall clock.
    - The code runs in a state and exception monad [M]: an uncaught Python
      exception (KeyError, IndexError, a parse failure, or the SystemExit of
      [sys.exit]) is an [Err] that skips the rest of the program.
    - The numbers are computed as numpy computes them. A row sum is an int64
      sum that wraps around modulo 2^64. A column mean goes through numpy's
      float64 pairwise summation and a float64 division. The f-string
      formats [:.1f] and [:.0f] round the exact binary value of a double. A
      double is a rational number; [round64] rounds to the nearest one (53
      significant bits, ties to even). No value here comes near the float64
      overflow at 2^1024.

    The purely cosmetic pyplot calls (titles, axis labels, grid,
    tight_layout, figure size, line width) change no modelled state and are
    left out. *)

From Stdlib Require Import ZArith QArith Qround Qreduction Qabs Ascii List String Bool Lia.
From Stdlib Require Qcanon.
From stdpp Require Import base list strings pretty.

Import ListNotations.


(** ** Data model *)

Record table := mk_table {
  columns : list string;
  rows : list (list Z)
}.

(** The time column is recognised by this exact name. *)
Definition TIME_COL : string := "TimeStep".

Definition is_time_col (c : string) : bool := String.eqb c TIME_COL.

(** A DataFrame as [pd.read_csv] returns it: column names are unique
    (duplicates are renamed by the parser) and every row has one value per
    column. *)
Definition table_wf (t : table) : Prop :=
  List.NoDup (columns t) /\ Forall (fun r => length r = length (columns t)) (rows t).

Inductive exn :=
| KeyError (key : string)
| IndexError
| ParseError
| NameError
| SystemExit (code : Z).

Inductive res (A : Type) :=
| Ok (a : A)
| Err (e : exn).
Arguments Ok {A} a.
Arguments Err {A} e.

(** [list.index(c)] on the column names. *)
Fixpoint index_of (c : string) (cs : list string) : option nat :=
  match cs with
  | [] => None
  | c' :: cs' =>
      if String.eqb c c' then Some 0
      else match index_of c cs' with Some i => Some (S i) | None => None end
  end.

(** [data[c]]: the column named [c], or KeyError. *)
Definition get_col (t : table) (c : string) : res (list Z) :=
  match index_of c (columns t) with
  | Some i => Ok (map (fun r => nth i r 0%Z) (rows t))
  | None => Err (KeyError c)
  end.

(** [series.iloc[0]] and [series.iloc[-1]] (also [data.iloc[0]] and
    [data.iloc[-1]] on the rows). *)
Definition iloc_first {A} (xs : list A) : res A :=
  match xs with [] => Err IndexError | x :: _ => Ok x end.

Definition iloc_last {A} (xs : list A) : res A :=
  match xs with [] => Err IndexError | x :: xs' => Ok (List.last xs' x) end.

(** [series.max()] and [series.min()]; the empty case is never reached
    because [iloc[0]] fails first. *)
Definition max_Z (xs : list Z) : Z :=
  match xs with [] => 0%Z | x :: xs' => fold_left Z.max xs' x end.

Definition min_Z (xs : list Z) : Z :=
  match xs with [] => 0%Z | x :: xs' => fold_left Z.min xs' x end.

(** ** int64 and float64 arithmetic *)

(** An int64 result: [z] wrapped around into [-2^63, 2^63). *)
Definition wrap64 (z : Z) : Z := ((z + 2 ^ 63) mod 2 ^ 64 - 2 ^ 63)%Z.

(** [row.sum()] on an int64 row: numpy adds in int64, wrapping on
    overflow. *)
Definition int64_sum (xs : list Z) : Z :=
  fold_left (fun acc x => wrap64 (acc + x)) xs 0%Z.

(** 2^e as a rational, for any integer [e]. *)
Definition pow2 (e : Z) : Q :=
  if (0 <=? e)%Z then inject_Z (2 ^ e) else 1 # Z.to_pos (2 ^ (- e)).

(** The integer nearest to [q], ties to the even one. *)
Definition round_ne (q : Q) : Z :=
  let f := Qfloor q in
  match (q - inject_Z f ?= 1 # 2)%Q with
  | Lt => f
  | Gt => (f + 1)%Z
  | Eq => if Z.even f then f else (f + 1)%Z
  end.

(** floor(log2 q) for [q > 0]. *)
Definition qlog2 (q : Q) : Z :=
  let e := (Z.log2 (Qnum q) - Z.log2 (Zpos (Qden q)))%Z in
  if Qle_bool (pow2 e) q then e else (e - 1)%Z.

(** The IEEE double nearest to [q] (53-bit significand, subnormals below
    2^-1022, round half to even). *)
Definition round64 (q : Q) : Q :=
  let q := Qred q in
  if Qeq_bool q 0 then 0
  else let u := Z.max (qlog2 (Qabs q) - 52) (-1074) in
       Qred (inject_Z (round_ne (q / pow2 u)) * pow2 u).

(** Addition of two doubles. *)
Definition fadd (x y : Q) : Q := round64 (x + y).

(** The 8 accumulators [r] of numpy's [pairwise_sum] after [k] more blocks
    of 8 values. *)
Fixpoint add_blocks (k : nat) (r xs : list Q) : list Q :=
  match k with
  | O => r
  | S k' => add_blocks k' (zip_with fadd r (firstn 8 xs)) (skipn 8 xs)
  end.

(** numpy's [pairwise_sum] on doubles (loops_utils.h, PW_BLOCKSIZE = 128):
    sequential below 8 values, 8 accumulators up to 128 values, halves
    (cut at a multiple of 8) above. [fuel] bounds the recursion depth; the
    length of [xs] is enough. *)
Fixpoint pairwise_sum (fuel : nat) (xs : list Q) : Q :=
  let n := length xs in
  if n <? 8 then fold_left fadd xs 0%Q
  else if n <=? 128 then
    let m := n - n mod 8 in
    let r := add_blocks (m / 8 - 1) (firstn 8 xs) (skipn 8 xs) in
    let res := fadd (fadd (fadd (nth 0 r 0%Q) (nth 1 r 0%Q))
                          (fadd (nth 2 r 0%Q) (nth 3 r 0%Q)))
                    (fadd (fadd (nth 4 r 0%Q) (nth 5 r 0%Q))
                          (fadd (nth 6 r 0%Q) (nth 7 r 0%Q))) in
    fold_left fadd (skipn m xs) res
  else match fuel with
       | O => 0%Q
       | S fuel' =>
           let n2 := n / 2 - (n / 2) mod 8 in
           fadd (pairwise_sum fuel' (firstn n2 xs)) (pairwise_sum fuel' (skipn n2 xs))
       end.

(** numpy's buffer size: a casting reduction runs over chunks of this
    many values. *)
Definition NPY_BUFSIZE : nat := 2 ^ 13.   (** 8192 *)

(** [np.add.reduce] into the accumulator [acc] (initially the identity
    0.0), one [pairwise_sum] per chunk of the buffer. *)
Fixpoint buffered_sum (k : nat) (acc : Q) (xs : list Q) : Q :=
  match k with
  | O => acc
  | S k' =>
      let chunk := firstn NPY_BUFSIZE xs in
      buffered_sum k' (fadd acc (pairwise_sum (length chunk) chunk))
                   (skipn NPY_BUFSIZE xs)
  end.

(** [values.sum(dtype=np.float64)] on an int64 column: each value cast to
    double, then summed. *)
Definition float64_sum (vs : list Z) : Q :=
  let xs := map (fun v => round64 (inject_Z v)) vs in
  buffered_sum ((length xs + NPY_BUFSIZE - 1) / NPY_BUFSIZE) 0%Q xs.

(** [series.mean()] on an int64 column (pandas' [nanmean]): the float64
    sum divided by the float64 count. *)
Definition pandas_mean (vs : list Z) : Q :=
  round64 (float64_sum vs / round64 (inject_Z (Z.of_nat (length vs)))).

(** [f"{x:.1f}"] on a double, as the integer number of tenths it shows: the
    exact binary value rounded to one decimal, ties to even. *)
Definition fmt_1f (x : Q) : Z := round_ne (x * 10).

(** [f"{z:.0f}"] on an np.int64: numpy formats it as a Python int, which
    [format] converts to the nearest double and prints exactly. *)
Definition fmt_int_0f (z : Z) : Z := round_ne (round64 (inject_Z z)).


(** One per-species line of the statistics table, as printed; the mean
    ([:.1f]) is held as its number of tenths. *)
Record line := mk_line {
  l_name : string;
  l_initial : Z;
  l_final : Z;
  l_mean : Z;
  l_max : Z;
  l_min : Z
}.

(** Standard output, one event per [print]. *)
Inductive out :=
| OText (s : string)
| OLoaded (timesteps species : Z)
| OLine (l : line)
| OTimesteps (n : Z)
| OInitTotal (z : Z)
| OFinalTotal (z : Z)
| OSaved (path : string).

(** A line drawn by [plot(x, y, label=...)]. *)
Record series := mk_series {
  s_label : string;
  s_x : list Z;
  s_y : list Z
}.

Record axes := mk_axes {
  ax_series : list series;
  ax_legend : list string
}.

Definition empty_axes : axes := mk_axes [] [].

Abbreviation figure := (list axes).

Inductive file :=
| CsvFile (contents : option table)   (** [None]: not parseable as CSV *)
| PngFile (img : figure).

Definition loc := nat.

Record world := mk_world {
  w_files : list (string * file);
  w_heap : list table;
  w_figs : list figure;          (** open figures, current one first *)
  w_stdout : list out;
  w_clock : Q                    (** [time.time()] *)
}.

(** ** The state and exception monad *)

Definition M (A : Type) := world -> world * res A.

Definition retM {A} (a : A) : M A := fun w => (w, Ok a).

Definition bindM {A B} (m : M A) (k : A -> M B) : M B :=
  fun w => match m w with
           | (w', Ok a) => k a w'
           | (w', Err e) => (w', Err e)
           end.

Notation "'let*' x ':=' m 'in' k" := (bindM m (fun x => k))
  (at level 200, x name, m at level 100, k at level 200).
Notation "m ;; k" := (bindM m (fun _ => k)) (at level 100, right associativity).

Definition raise {A} (e : exn) : M A := fun w => (w, Err e).

Definition lift {A} (r : res A) : M A := fun w => (w, r).

Definition print (o : out) : M unit :=
  fun w => (mk_world (w_files w) (w_heap w) (w_figs w) (w_stdout w ++ [o])
                     (w_clock w), Ok tt).

Definition modify_figs (f : list figure -> list figure) : M unit :=
  fun w => (mk_world (w_files w) (w_heap w) (f (w_figs w)) (w_stdout w)
                     (w_clock w), Ok tt).

(** Dereferencing the variable [data]. *)
Definition deref (d : loc) : M table :=
  fun w => match nth_error (w_heap w) d with
           | Some t => (w, Ok t)
           | None => (w, Err NameError)
           end.

(** [for x in xs: body(x)] *)
Fixpoint for_each {A} (xs : list A) (body : A -> M unit) : M unit :=
  match xs with
  | [] => retM tt
  | x :: xs' => body x ;; for_each xs' body
  end.

(** ** [print_statistics] *)

Definition sep80 : string := "================================================================================".

Definition dash80 : string := "--------------------------------------------------------------------------------".

Definition stat_line (t : table) (column : string) : M unit :=
  let* vs := lift (get_col t column) in
  let* initial := lift (iloc_first vs) in
  let* final := lift (iloc_last vs) in
  let mean := pandas_mean vs in
  let maximum := max_Z vs in
  let minimum := min_Z vs in
  print (OLine (mk_line column initial final (fmt_1f mean) maximum minimum)).

Definition print_statistics (data : loc) : M unit :=
  let* t := deref data in
  print (OText sep80) ;;
  print (OText "ECOSYSTEM STATISTICS SUMMARY") ;;
  print (OText sep80) ;;
  print (OText "Species Initial Final Mean Max Min") ;;
  print (OText dash80) ;;
  for_each (columns t) (fun column =>
    if negb (is_time_col column) then stat_line t column
    else retM tt) ;;
  print (OText sep80) ;;
  print (OTimesteps (Z.of_nat (length (rows t)))) ;;
  let* r0 := lift (iloc_first (rows t)) in
  let* ts := lift (get_col t TIME_COL) in
  let* ts0 := lift (iloc_first ts) in
  print (OInitTotal (fmt_int_0f (wrap64 (int64_sum r0 - ts0)))) ;;
  let* rl := lift (iloc_last (rows t)) in
  let* ts' := lift (get_col t TIME_COL) in
  let* tsl := lift (iloc_last ts') in
  print (OFinalTotal (fmt_int_0f (wrap64 (int64_sum rl - tsl)))) ;;
  print (OText sep80).

(** ** pyplot's figure state *)

(** [plt.close('all')] *)
Definition close_all : M unit := modify_figs (fun _ => []).

(** [plt.figure()] (one axes) and [plt.subplots(n, 1)] ([n] axes): a new
    current figure. *)
Definition new_figure (n : nat) : M unit :=
  modify_figs (fun fs => repeat empty_axes n :: fs).

Definition on_current (f : figure -> figure) (fs : list figure) : list figure :=
  match fs with [] => [] | fig :: fs' => f fig :: fs' end.

(** [axes[k].plot(x, y, label=...)] on the current figure. *)
Definition plot_on (k : nat) (s : series) : M unit :=
  modify_figs (on_current (alter (fun a =>
    mk_axes (ax_series a ++ [s]) (ax_legend a)) k)).

(** matplotlib's legend skips the lines whose label is empty or starts with
    an underscore. *)
Definition legend_shown (label : string) : bool :=
  match label with
  | EmptyString => false
  | String c _ => negb (Ascii.eqb c "_"%char)
  end.

(** [axes[k].legend()]: one entry per line of the axes whose label is
    shown, in drawing order. *)
Definition legend_on (k : nat) : M unit :=
  modify_figs (on_current (alter (fun a =>
    mk_axes (ax_series a) (List.filter legend_shown (map s_label (ax_series a)))) k)).

(** Writing a file: an existing file of that name is overwritten. *)
Fixpoint write_file (path : string) (f : file) (fs : list (string * file))
  : list (string * file) :=
  match fs with
  | [] => [(path, f)]
  | (p, g) :: fs' =>
      if String.eqb p path then (p, f) :: fs' else (p, g) :: write_file path f fs'
  end.

Fixpoint find_file (path : string) (fs : list (string * file)) : option file :=
  match fs with
  | [] => None
  | (p, g) :: fs' => if String.eqb p path then Some g else find_file path fs'
  end.

(** [plt.savefig(output)]: the current figure becomes the file's image. *)
Definition savefig (output : string) : M unit :=
  fun w => (mk_world (write_file output (PngFile (hd [] (w_figs w))) (w_files w))
                     (w_heap w) (w_figs w) (w_stdout w) (w_clock w), Ok tt).

(** [plt.close()]: closes the current figure. *)
Definition close_current : M unit := modify_figs tl.

(** ** [plot_all_populations] *)

Definition plot_all_populations (data : loc) (output : string) : M unit :=
  let* t := deref data in
  close_all ;;
  new_figure 1 ;;
  for_each (columns t) (fun column =>
    if negb (is_time_col column) then
      let* x := lift (get_col t TIME_COL) in
      let* y := lift (get_col t column) in
      plot_on 0 (mk_series column x y)
    else retM tt) ;;
  legend_on 0 ;;
  savefig output ;;
  close_current ;;
  print (OSaved output).

(** ** [plot_trophic_levels] *)

Definition producers : list string := ["Wildflowers"; "Berries"; "Aspen"; "Spruce"].
Definition herbivores : list string :=
  ["Deer"; "Bunny"; "FieldMouse"; "GroundSquirrel"; "Chipmunk"].
Definition predators : list string := ["Fox"; "Coyote"; "BlackBear"].

(** [name in data.columns] *)
Definition in_columns (t : table) (name : string) : bool :=
  existsb (String.eqb name) (columns t).

(** One panel: [for s in group: if s in data.columns: axes[k].plot(...)],
    then the panel's legend. *)
Definition draw_panel (t : table) (k : nat) (group : list string) : M unit :=
  for_each group (fun s =>
    if in_columns t s then
      let* x := lift (get_col t TIME_COL) in
      let* y := lift (get_col t s) in
      plot_on k (mk_series s x y)
    else retM tt) ;;
  legend_on k.

Definition plot_trophic_levels (data : loc) (output : string) : M unit :=
  let* t := deref data in
  close_all ;;
  new_figure 3 ;;
  draw_panel t 0 producers ;;
  draw_panel t 1 herbivores ;;
  draw_panel t 2 predators ;;
  savefig output ;;
  close_current ;;
  print (OSaved output).

(** ** [load_data] *)

(** [os.path.exists(filename)] *)
Definition path_exists (filename : string) : M bool :=
  fun w => (w, Ok (match find_file filename (w_files w) with
                   | Some _ => true | None => false end)).

(** [pd.read_csv(filename)] *)
Definition read_csv (filename : string) : M table :=
  fun w => match find_file filename (w_files w) with
           | Some (CsvFile (Some t)) => (w, Ok t)
           | _ => (w, Err ParseError)
           end.

(** Binding the new DataFrame object to a fresh reference. *)
Definition alloc (t : table) : M loc :=
  fun w => (mk_world (w_files w) (w_heap w ++ [t]) (w_figs w) (w_stdout w)
                     (w_clock w), Ok (length (w_heap w))).

Definition load_data (filename : string) : M loc :=
  let* ex := path_exists filename in
  (if negb ex then
     print (OText ("Error: " +:+ filename +:+ " not found")) ;;
     raise (SystemExit 1)
   else retM tt) ;;
  let* t := read_csv filename in
  print (OLoaded (Z.of_nat (length (rows t)))
                 (Z.of_nat (length (columns t)) - 1)) ;;
  alloc t.

(** ** [main] *)

(** [time.time()] *)
Definition get_time : M Q := fun w => (w, Ok (w_clock w)).

(** Python's [int] on a float: truncation toward zero. *)
Definition py_int (q : Q) : Z := Z.quot (Qnum q) (Zpos (Qden q)).

Definition pop_file (timestamp : Z) : string :=
  "population_dynamics_" +:+ pretty timestamp +:+ ".png".

Definition troph_file (timestamp : Z) : string :=
  "trophic_levels_" +:+ pretty timestamp +:+ ".png".

Definition main : M unit :=
  print (OText "Ecosystem Data Visualization Tool") ;;
  print (OText "==================================================") ;;
  let* data := load_data "ecosystem_data.csv" in
  print_statistics data ;;
  let* now := get_time in
  let timestamp := py_int now in
  print (OText "Generating visualizations...") ;;
  plot_all_populations data (pop_file timestamp) ;;
  plot_trophic_levels data (troph_file timestamp) ;;
  print (OText "Visualization complete!") ;;
  print (OText "Check the generated PNG files for plots.").

(** ** Sample inputs *)

Definition sample : table :=
  mk_table ["TimeStep"; "Deer"; "Wildflowers"; "Fox"; "UnknownCritter"]
    [[0; 10; 100; 2; 7]; [1; 12; 90; 3; 6]; [2; 15; 80; 3; 5];
     [3; 14; 85; 4; 9]; [4; 11; 95; 2; 8]]%Z.

Definition world_with (files : list (string * file)) (heap : list table)
  (clock : Q) : world := mk_world files heap [] [] clock.

(** The sample table held by the variable [data] (reference 0). *)
Definition sample_world : world := world_with [] [sample] 0.

(** A table with its columns but no rows. *)
Definition empty_sample : table := mk_table ["TimeStep"; "Deer"] [].

(** A table whose time column is spelled in lower case. *)
Definition lower_timestep : table := mk_table ["timestep"; "Deer"] [[0; 5]; [1; 6]]%Z.

(** ** Observations on standard output *)

(** The per-species lines among the printed events. *)
Fixpoint out_lines (os : list out) : list line :=
  match os with
  | [] => []
  | OLine l :: os' => l :: out_lines os'
  | _ :: os' => out_lines os'
  end.

(** The column of index [i], read row by row. *)
Definition column_values (t : table) (i : nat) : list Z :=
  map (fun r => nth i r 0%Z) (rows t).

Definition sum_list (xs : list Z) : Z := fold_right Z.add 0%Z xs.

Fixpoint sum_abs (xs : list Z) : Z :=
  match xs with [] => 0%Z | x :: xs' => (Z.abs x + sum_abs xs')%Z end.

(** The arithmetic mean of a column, as an exact rational. *)
Definition mean_Q (xs : list Z) : Q :=
  inject_Z (sum_list xs) / inject_Z (Z.of_nat (length xs)).

(** ** Views of runs and helper functions for the statements *)

(** What a printed line holds: the statistics of the column of its name. *)
Definition line_spec (t : table) (l : line) : Prop :=
  exists i, index_of (l_name l) (columns t) = Some i /\
    let vs := column_values t i in
    l_initial l = hd 0%Z vs /\ l_final l = List.last vs 0%Z /\
    l_mean l = fmt_1f (pandas_mean vs) /\ l_max l = max_Z vs /\ l_min l = min_Z vs.

Definition stat_body (t : table) (column : string) : M unit :=
  if negb (is_time_col column) then stat_line t column else retM tt.

Definition stat_header : list out :=
  [OText sep80; OText "ECOSYSTEM STATISTICS SUMMARY"; OText sep80;
   OText "Species Initial Final Mean Max Min"; OText dash80].

(** The sum of the species (non-time) columns of a row, as the spec states
    it. *)
Definition species_total (t : table) (r : list Z) : Z :=
  sum_list (map snd (List.filter (fun p => negb (is_time_col (fst p)))
                                 (combine (columns t) r))).

Definition with_figs (w : world) (fs : list figure) : world :=
  mk_world (w_files w) (w_heap w) fs (w_stdout w) (w_clock w).

(** [data[c]] for a column known to exist. *)
Definition col_of (t : table) (c : string) : list Z :=
  match get_col t c with Ok v => v | Err _ => [] end.

Definition add_series (ss : list series) (a : axes) : axes :=
  mk_axes (ax_series a ++ ss) (ax_legend a).

(** The series drawn for the columns [cs], against the time values [ts]. *)
Definition series_for (t : table) (ts : list Z) (cs : list string) : list series :=
  map (fun c => mk_series c ts (col_of t c)) cs.

(** An axes holding [ss], after its [legend()] call. *)
Definition axes_of (ss : list series) : axes :=
  mk_axes ss (List.filter legend_shown (map s_label ss)).

Definition plot_body (t : table) (k : nat) (p : string -> bool) (c : string)
  : M unit :=
  if p c then
    let* x := lift (get_col t TIME_COL) in
    let* y := lift (get_col t c) in
    plot_on k (mk_series c x y)
  else retM tt.

Definition nontime_columns (t : table) : list string :=
  List.filter (fun c => negb (is_time_col c)) (columns t).

(** The world after a completed chart: the image saved at [output], no
    figure left open, the confirmation printed. *)
Definition after_chart (w : world) (output : string) (img : figure) : world :=
  mk_world (write_file output (PngFile img) (w_files w)) (w_heap w) []
           (w_stdout w ++ [OSaved output]) (w_clock w).

(** The panels of the trophic chart, in order. *)
Definition trophic_groups : list (list string) := [producers; herbivores; predators].

Definition missing_msg (filename : string) : string :=
  "Error: " +:+ filename +:+ " not found".

Definition heap_frame {A} (m : M A) : Prop :=
  forall w, w_heap (fst (m w)) = w_heap w.

(** A table whose producer columns are in the opposite order to the
    producers group. *)
Definition reversed_producers : table :=
  mk_table ["TimeStep"; "Berries"; "Wildflowers"] [[0; 40; 90]; [1; 42; 85]]%Z.

(** A column whose single value, 2^53 + 1, is not a double. *)
Definition big_deer : table :=
  mk_table ["TimeStep"; "Deer"] [[0; 9007199254740993]]%Z.

(** A row whose species sum, 10^19, does not fit in an int64. *)
Definition big_row : table :=
  mk_table ["TimeStep"; "Deer"; "Fox"]
    [[0; 5000000000000000000; 5000000000000000000]]%Z.

(** A column whose name starts with an underscore. *)
Definition hidden_label : table :=
  mk_table ["TimeStep"; "_Deer"] [[0; 5]; [1; 6]]%Z.

Definition set_clock (w : world) (q : Q) : world :=
  mk_world (w_files w) (w_heap w) (w_figs w) (w_stdout w) q.

(** The paths reported by the "Saved: ..." lines. *)
Fixpoint saved_files (os : list out) : list string :=
  match os with
  | [] => []
  | OSaved p :: os' => p :: saved_files os'
  | _ :: os' => saved_files os'
  end.

(** A second run of the script in the same working directory, started when
    the clock reads [q]: the files and the output of the first run remain. *)
Definition second_run (w : world) (q : Q) : world := set_clock (fst (main w)) q.

Definition clock_a : Q := 6800000001 # 4.   (** 1700000000.25 *)
Definition clock_b : Q := 6800000003 # 4.   (** 1700000000.75 *)
Definition clock_c : Q := 3400000003 # 2.   (** 1700000001.5 *)

Definition sample_dir : world :=
  world_with [("ecosystem_data.csv", CsvFile (Some sample))] [] clock_a.

(** A computation that writes no file and prints nothing. *)
Definition quiet {A} (m : M A) : Prop :=
  forall w, w_files (fst (m w)) = w_files w /\ w_stdout (fst (m w)) = w_stdout w.

(** A computation that, when it raises, has written no file and printed
    nothing. *)
Definition keeps_on_error {A} (m : M A) : Prop :=
  forall w w' e, m w = (w', Err e) ->
  w_files w' = w_files w /\ w_stdout w' = w_stdout w.

(** The images the two chart functions draw for a table with its time
    column. *)
Definition all_populations_image (t : table) : figure :=
  [axes_of (series_for t (col_of t TIME_COL) (nontime_columns t))].

Definition trophic_levels_image (t : table) : figure :=
  map (fun g => axes_of (series_for t (col_of t TIME_COL) (List.filter (in_columns t) g)))
      trophic_groups.

(** The lines [main] prints before loading the data. *)
Definition main_banner : list out :=
  [OText "Ecosystem Data Visualization Tool";
   OText "=================================================="].

(** ** Monad lemmas *)

Definition emit (w : world) (os : list out) : world :=
  mk_world (w_files w) (w_heap w) (w_figs w) (w_stdout w ++ os) (w_clock w).

Lemma emit_emit w a b : emit (emit w a) b = emit w (a ++ b).
Proof. unfold emit; simpl; now rewrite app_assoc. Qed.

Lemma emit_nil w : emit w [] = w.
Proof. destruct w; unfold emit; simpl; now rewrite app_nil_r. Qed.

Lemma print_run o w : print o w = (emit w [o], Ok tt).
Proof. reflexivity. Qed.

Lemma seq_print o (m : M unit) w : (print o ;; m) w = m (emit w [o]).
Proof. reflexivity. Qed.

Lemma bind_ok {A B} (m : M A) (k : A -> M B) w w' a :
  m w = (w', Ok a) -> bindM m k w = k a w'.
Proof. intros H; unfold bindM; now rewrite H. Qed.

Lemma bind_err {A B} (m : M A) (k : A -> M B) w w' e :
  m w = (w', Err e) -> bindM m k w = (w', Err e).
Proof. intros H; unfold bindM; now rewrite H. Qed.

Lemma bind_lift_ok {A B} (a : A) (k : A -> M B) w :
  bindM (lift (Ok a)) k w = k a w.
Proof. reflexivity. Qed.

Lemma bind_lift_err {A B} e (k : A -> M B) w :
  bindM (lift (Err e)) k w = (w, Err e).
Proof. reflexivity. Qed.

(** ** Column lookup *)

Lemma index_of_In c cs :
  In c cs -> exists i, index_of c cs = Some i /\ nth_error cs i = Some c.
Proof.
  induction cs as [|c' cs IH]; simpl; [tauto|].
  destruct (String.eqb_spec c c') as [->|Hne].
  - intros _; now exists 0.
  - intros [->|Hin]; [congruence|].
    destruct (IH Hin) as [i [-> Hi]]; now exists (S i).
Qed.

Lemma index_of_nth_error c cs i :
  index_of c cs = Some i -> nth_error cs i = Some c.
Proof.
  revert i; induction cs as [|c' cs IH]; simpl; intros i; [discriminate|].
  destruct (String.eqb_spec c c') as [->|Hne].
  - now intros [= <-].
  - destruct (index_of c cs) as [j|] eqn:E; [|discriminate].
    intros [= <-]; simpl; now apply IH.
Qed.

Lemma index_of_None c cs : index_of c cs = None -> ~ In c cs.
Proof.
  intros H Hin; destruct (index_of_In c cs Hin) as [i [Hi _]]; congruence.
Qed.

Lemma index_of_unique c cs i :
  List.NoDup cs -> nth_error cs i = Some c -> index_of c cs = Some i.
Proof.
  intros Hnd Hi.
  assert (Hin : In c cs) by (eapply nth_error_In; eauto).
  destruct (index_of_In c cs Hin) as [j [Hj Hj']].
  rewrite Hj; f_equal.
  apply (proj1 (NoDup_nth_error cs) Hnd).
  - apply nth_error_Some; congruence.
  - congruence.
Qed.

Lemma get_col_In t c :
  In c (columns t) ->
  exists i, get_col t c = Ok (column_values t i) /\ nth_error (columns t) i = Some c.
Proof.
  intros Hin; destruct (index_of_In c _ Hin) as [i [Hi Hn]].
  exists i; unfold get_col; now rewrite Hi.
Qed.

Lemma get_col_not_In t c : ~ In c (columns t) -> get_col t c = Err (KeyError c).
Proof.
  intros Hn; unfold get_col.
  destruct (index_of c (columns t)) as [i|] eqn:E; [|reflexivity].
  exfalso; apply Hn; eapply nth_error_In, index_of_nth_error, E.
Qed.

(** ** The per-species lines of [print_statistics] *)

Lemma last_cons {A} (xs : list A) x d : List.last (x :: xs) d = List.last xs x.
Proof.
  revert x d; induction xs as [|y xs IH]; intros x d; [reflexivity|].
  change (List.last (y :: xs) d = List.last (y :: xs) x).
  now rewrite !IH.
Qed.

Lemma stat_line_ok t c w :
  In c (columns t) -> rows t <> [] ->
  exists l, stat_line t c w = (emit w [OLine l], Ok tt) /\
            l_name l = c /\ line_spec t l.
Proof.
  intros Hin Hne.
  destruct (index_of_In c _ Hin) as [i [Hi _]].
  unfold stat_line, get_col; rewrite Hi, bind_lift_ok.
  destruct (rows t) as [|r0 rs] eqn:Er; [congruence|].
  unfold iloc_first, iloc_last; simpl; rewrite !bind_lift_ok.
  eexists; split; [reflexivity|]; split; [reflexivity|].
  exists i; split; [exact Hi|].
  unfold column_values; rewrite Er; simpl; repeat split.
  symmetry; apply (last_cons _ _ 0%Z).
Qed.

Lemma stat_loop t cs w :
  rows t <> [] -> incl cs (columns t) ->
  exists ls, for_each cs (stat_body t) w = (emit w (map OLine ls), Ok tt) /\
    map l_name ls = List.filter (fun c => negb (is_time_col c)) cs /\
    Forall (line_spec t) ls.
Proof.
  intros Hne; revert w; induction cs as [|c cs IH]; intros w Hincl.
  - exists []; simpl; now rewrite emit_nil.
  - assert (Hcs : incl cs (columns t)) by (intros x Hx; apply Hincl; now right).
    simpl; unfold stat_body at 1.
    destruct (is_time_col c) eqn:Ec; simpl.
    + destruct (IH w Hcs) as [ls [Hrun [Hnames Hspec]]].
      exists ls; split; [|split].
      * unfold bindM, retM; exact Hrun.
      * exact Hnames.
      * exact Hspec.
    + destruct (stat_line_ok t c w (Hincl c (or_introl eq_refl)) Hne)
        as [l [Hl [Hn Hs]]].
      destruct (IH (emit w [OLine l]) Hcs) as [ls [Hrun [Hnames Hspec]]].
      exists (l :: ls); split; [|split].
      * rewrite (bind_ok _ _ _ _ _ Hl), Hrun, emit_emit; reflexivity.
      * simpl; now rewrite Hn, Hnames.
      * now constructor.
Qed.

(** ** Maximum and minimum *)

Lemma fold_max_spec xs x :
  In (fold_left Z.max xs x) (x :: xs) /\
  Forall (fun v => (v <= fold_left Z.max xs x)%Z) (x :: xs).
Proof.
  revert x; induction xs as [|y xs IH]; intros x; simpl.
  - split; [now left|]; constructor; [lia|constructor].
  - destruct (IH (Z.max x y)) as [Hin Hall].
    inversion Hall as [|? ? Hm Hrest]; subst.
    split.
    + destruct Hin as [Heq|Hin]; [|now right; right].
      rewrite <- Heq; destruct (Z.max_spec x y) as [[_ ->]|[_ ->]];
        [now right; left|now left].
    + constructor; [lia|]; constructor; [lia|exact Hrest].
Qed.

Lemma fold_min_spec xs x :
  In (fold_left Z.min xs x) (x :: xs) /\
  Forall (fun v => (fold_left Z.min xs x <= v)%Z) (x :: xs).
Proof.
  revert x; induction xs as [|y xs IH]; intros x; simpl.
  - split; [now left|]; constructor; [lia|constructor].
  - destruct (IH (Z.min x y)) as [Hin Hall].
    inversion Hall as [|? ? Hm Hrest]; subst.
    split.
    + destruct Hin as [Heq|Hin]; [|now right; right].
      rewrite <- Heq; destruct (Z.min_spec x y) as [[_ ->]|[_ ->]];
        [now left|now right; left].
    + constructor; [lia|]; constructor; [lia|exact Hrest].
Qed.

Lemma max_Z_spec xs :
  xs <> [] -> In (max_Z xs) xs /\ Forall (fun v => (v <= max_Z xs)%Z) xs.
Proof. destruct xs as [|x xs]; [congruence|intros _; apply fold_max_spec]. Qed.

Lemma min_Z_spec xs :
  xs <> [] -> In (min_Z xs) xs /\ Forall (fun v => (min_Z xs <= v)%Z) xs.
Proof. destruct xs as [|x xs]; [congruence|intros _; apply fold_min_spec]. Qed.

Lemma fold_add_acc xs a : fold_left Z.add xs a = (a + sum_list xs)%Z.
Proof.
  revert a; induction xs as [|x xs IH]; intros a; simpl; [lia|].
  rewrite IH; lia.
Qed.

Lemma mean_Q_spec xs :
  xs <> [] -> mean_Q xs * inject_Z (Z.of_nat (length xs)) == inject_Z (sum_list xs).
Proof.
  intros Hne; unfold mean_Q.
  rewrite Qmult_comm; apply Qmult_div_r.
  destruct xs as [|x xs]; [congruence|].
  simpl; unfold Qeq; simpl; lia.
Qed.

(** ** Float64 and int64 arithmetic *)

Lemma sum_list_nil : sum_list [] = 0%Z.
Proof. reflexivity. Qed.

Lemma sum_list_cons x xs : sum_list (x :: xs) = (x + sum_list xs)%Z.
Proof. reflexivity. Qed.

Lemma sum_list_app a b : sum_list (a ++ b) = (sum_list a + sum_list b)%Z.
Proof.
  induction a as [|x a IH]; [reflexivity|].
  rewrite <- app_comm_cons, !sum_list_cons, IH; ring.
Qed.

Lemma sum_abs_app a b : sum_abs (a ++ b) = (sum_abs a + sum_abs b)%Z.
Proof. induction a as [|x a IH]; simpl; [reflexivity|]; rewrite IH; ring. Qed.

Lemma sum_abs_nonneg xs : (0 <= sum_abs xs)%Z.
Proof. induction xs; simpl; lia. Qed.

Lemma abs_sum_le xs : (Z.abs (sum_list xs) <= sum_abs xs)%Z.
Proof. induction xs as [|x xs IH]; [simpl; lia|]; rewrite sum_list_cons; simpl; lia. Qed.

Lemma sum_abs_In v xs : In v xs -> (Z.abs v <= sum_abs xs)%Z.
Proof.
  induction xs as [|x xs IH]; simpl; [tauto|].
  pose proof (sum_abs_nonneg xs); intros [->|Hv]; [lia|specialize (IH Hv); lia].
Qed.

Lemma firstn_add {A} n m (l : list A) :
  firstn (n + m) l = firstn n l ++ firstn m (skipn n l).
Proof.
  revert l; induction n as [|n IH]; intros l; [reflexivity|].
  destruct l as [|x l]; simpl; [now destruct m|now rewrite IH].
Qed.

Lemma Qred_inject_Z z : Qred (inject_Z z) = inject_Z z.
Proof. apply Qcanon.Qred_identity; simpl; apply Z.gcd_1_r. Qed.

Lemma round64_Qeq p q : p == q -> round64 p = round64 q.
Proof. intros H; unfold round64; now rewrite (Qred_complete p q H). Qed.

Lemma round_ne_int q n : q == inject_Z n -> round_ne q = n.
Proof.
  intros H; unfold round_ne.
  assert (Hf : Qfloor q = n) by (rewrite H; apply Qfloor_Z).
  assert (Hl : (q - inject_Z (Qfloor q) ?= 1 # 2)%Q = Lt).
  { apply Qlt_alt; rewrite Hf, H; unfold Qminus; rewrite Qplus_opp_r.
    reflexivity. }
  rewrite Hl; exact Hf.
Qed.

Lemma qlog2_inject_Z z : (0 < z)%Z -> qlog2 (inject_Z z) = Z.log2 z.
Proof.
  intros Hz; unfold qlog2; cbn [Qnum Qden inject_Z].
  change (Z.log2 (Zpos 1)) with 0%Z; rewrite Z.sub_0_r.
  assert (Hp : pow2 (Z.log2 z) = inject_Z (2 ^ Z.log2 z)).
  { unfold pow2; destruct (Z.leb_spec 0 (Z.log2 z)); [reflexivity|].
    pose proof (Z.log2_nonneg z); lia. }
  rewrite Hp.
  replace (Qle_bool _ _) with true; [reflexivity|].
  symmetry; apply Qle_bool_iff; rewrite <- Zle_Qle.
  exact (proj1 (Z.log2_spec z Hz)).
Qed.

Lemma pow2_pos_Z k : (0 <= k)%Z -> (0 < 2 ^ k)%Z.
Proof. intros; apply Z.pow_pos_nonneg; lia. Qed.

Lemma Qdiv_pow2_neg q k : (0 <= k)%Z -> q / pow2 (- k) == q * inject_Z (2 ^ k).
Proof.
  intros Hk; unfold pow2.
  destruct (Z.leb_spec 0 (- k)) as [H|H].
  - assert (k = 0%Z) by lia; subst k; reflexivity.
  - rewrite Z.opp_involutive; unfold Qdiv, Qinv; cbn [Qnum Qden].
    unfold inject_Z; rewrite Z2Pos.id by (now apply pow2_pos_Z); reflexivity.
Qed.

Lemma pow2_neg_mul z k : (0 <= k)%Z -> inject_Z (z * 2 ^ k) * pow2 (- k) == inject_Z z.
Proof.
  intros Hk; unfold pow2.
  destruct (Z.leb_spec 0 (- k)) as [H|H].
  - assert (k = 0%Z) by lia; subst k.
    replace (2 ^ (- 0))%Z with 1%Z by reflexivity; replace (2 ^ 0)%Z with 1%Z by reflexivity.
    rewrite Z.mul_1_r; apply Qmult_1_r.
  - rewrite Z.opp_involutive; unfold Qeq, Qmult; cbn [Qnum Qden inject_Z].
    rewrite Pos.mul_1_l, Z2Pos.id by (now apply pow2_pos_Z); ring.
Qed.

Lemma round64_int z : (Z.abs z <= 2 ^ 53)%Z -> round64 (inject_Z z) = inject_Z z.
Proof.
  intros Hz.
  destruct (Z.eq_dec (Z.abs z) (2 ^ 53)%Z) as [He|He].
  { destruct (Z.abs_spec z) as [[_ Ha]|[_ Ha]]; rewrite Ha in He.
    - subst z; vm_compute; reflexivity.
    - assert (z = - 2 ^ 53)%Z as -> by lia; vm_compute; reflexivity. }
  unfold round64; rewrite Qred_inject_Z.
  destruct (Z.eq_dec z 0%Z) as [->|Hz0]; [reflexivity|].
  replace (Qeq_bool (inject_Z z) 0) with false.
  2:{ symmetry; apply not_true_iff_false; intros Hq; apply Qeq_bool_iff in Hq.
      unfold Qeq in Hq; simpl in Hq; lia. }
  change (Qabs (inject_Z z)) with (inject_Z (Z.abs z)).
  rewrite qlog2_inject_Z by lia.
  set (L := Z.log2 (Z.abs z)).
  assert (HL : (0 <= L <= 52)%Z).
  { split; [apply Z.log2_nonneg|].
    assert (Z.log2 (Z.abs z) < 53)%Z by (apply Z.log2_lt_pow2; lia).
    unfold L; lia. }
  rewrite Z.max_l by lia.
  replace (L - 52)%Z with (- (52 - L))%Z by lia.
  rewrite (round_ne_int _ (z * 2 ^ (52 - L))).
  2:{ rewrite Qdiv_pow2_neg by lia; now rewrite inject_Z_mult. }
  transitivity (Qred (inject_Z z)); [apply Qred_complete|apply Qred_inject_Z].
  apply pow2_neg_mul; lia.
Qed.

Lemma fadd_exact s t a b :
  (Z.abs s <= a)%Z -> (Z.abs t <= b)%Z -> (a + b <= 2 ^ 53)%Z ->
  fadd (inject_Z s) (inject_Z t) = inject_Z (s + t).
Proof.
  intros Hs Ht Hab; unfold fadd.
  rewrite (round64_Qeq _ (inject_Z (s + t))) by (rewrite inject_Z_plus; reflexivity).
  apply round64_int; lia.
Qed.

Lemma fold_exact ys s a :
  (Z.abs s <= a)%Z -> (a + sum_abs ys <= 2 ^ 53)%Z ->
  fold_left fadd (map inject_Z ys) (inject_Z s) = inject_Z (s + sum_list ys).
Proof.
  revert s a; induction ys as [|y ys IH]; intros s a Hs Hb; cbn [map fold_left].
  - now rewrite sum_list_nil, Z.add_0_r.
  - cbn [sum_abs] in Hb; pose proof (sum_abs_nonneg ys).
    rewrite (fadd_exact s y a (Z.abs y)) by lia.
    rewrite (IH (s + y)%Z (a + Z.abs y)%Z) by lia.
    rewrite sum_list_cons; f_equal; ring.
Qed.

Lemma zip_exact rs bs :
  length rs = length bs -> (sum_abs rs + sum_abs bs <= 2 ^ 53)%Z ->
  zip_with fadd (map inject_Z rs) (map inject_Z bs) =
    map inject_Z (zip_with Z.add rs bs) /\
  sum_list (zip_with Z.add rs bs) = (sum_list rs + sum_list bs)%Z /\
  (sum_abs (zip_with Z.add rs bs) <= sum_abs rs + sum_abs bs)%Z /\
  length (zip_with Z.add rs bs) = length rs.
Proof.
  revert bs; induction rs as [|r rs IH]; intros [|b bs] Hl Hb;
    try discriminate; [cbn; repeat split; (reflexivity || lia)|].
  cbn [sum_abs] in Hb; pose proof (sum_abs_nonneg rs); pose proof (sum_abs_nonneg bs).
  destruct (IH bs ltac:(simpl in Hl; lia) ltac:(lia)) as [H1 [H2 [H3 H4]]].
  cbn [map zip_with sum_abs length].
  rewrite (fadd_exact r b (Z.abs r) (Z.abs b)) by lia.
  rewrite H1, !sum_list_cons, H2, H4; repeat split; try reflexivity; try ring; lia.
Qed.

Lemma add_blocks_exact k rs ys :
  length rs = 8 -> 8 * k <= length ys ->
  (sum_abs rs + sum_abs (firstn (8 * k) ys) <= 2 ^ 53)%Z ->
  exists rs', add_blocks k (map inject_Z rs) (map inject_Z ys) = map inject_Z rs' /\
    length rs' = 8 /\
    sum_list rs' = (sum_list rs + sum_list (firstn (8 * k) ys))%Z /\
    (sum_abs rs' <= sum_abs rs + sum_abs (firstn (8 * k) ys))%Z.
Proof.
  revert rs ys; induction k as [|k IH]; intros rs ys Hr Hy Hb.
  - exists rs; cbn [add_blocks]; replace (8 * 0) with 0 by lia; rewrite firstn_O.
    rewrite sum_list_nil; cbn [sum_abs]; repeat split; auto; lia.
  - cbn [add_blocks]; rewrite firstn_map, skipn_map.
    replace (8 * S k) with (8 + 8 * k) in * by lia.
    rewrite firstn_add in *; rewrite sum_abs_app in Hb.
    assert (Hl8 : length (firstn 8 ys) = 8) by (rewrite length_firstn; lia).
    pose proof (sum_abs_nonneg (firstn (8 * k) (skipn 8 ys))).
    destruct (zip_exact rs (firstn 8 ys) ltac:(lia) ltac:(lia)) as [Z1 [Z2 [Z3 Z4]]].
    rewrite Z1.
    destruct (IH (zip_with Z.add rs (firstn 8 ys)) (skipn 8 ys))
      as [rs' [E1 [E2 [E3 E4]]]].
    + lia.
    + rewrite length_skipn; lia.
    + lia.
    + exists rs'; split; [exact E1|]; split; [exact E2|].
      rewrite sum_list_app, sum_abs_app; split; lia.
Qed.

Lemma tree8_exact r0 r1 r2 r3 r4 r5 r6 r7 :
  (sum_abs [r0; r1; r2; r3; r4; r5; r6; r7] <= 2 ^ 53)%Z ->
  fadd (fadd (fadd (inject_Z r0) (inject_Z r1)) (fadd (inject_Z r2) (inject_Z r3)))
       (fadd (fadd (inject_Z r4) (inject_Z r5)) (fadd (inject_Z r6) (inject_Z r7))) =
  inject_Z (sum_list [r0; r1; r2; r3; r4; r5; r6; r7]).
Proof.
  intros H; cbn [sum_abs] in H.
  rewrite (fadd_exact r0 r1 (Z.abs r0) (Z.abs r1)) by lia.
  rewrite (fadd_exact r2 r3 (Z.abs r2) (Z.abs r3)) by lia.
  rewrite (fadd_exact r4 r5 (Z.abs r4) (Z.abs r5)) by lia.
  rewrite (fadd_exact r6 r7 (Z.abs r6) (Z.abs r7)) by lia.
  rewrite (fadd_exact (r0 + r1) (r2 + r3) (Z.abs r0 + Z.abs r1) (Z.abs r2 + Z.abs r3))
    by lia.
  rewrite (fadd_exact (r4 + r5) (r6 + r7) (Z.abs r4 + Z.abs r5) (Z.abs r6 + Z.abs r7))
    by lia.
  rewrite (fadd_exact (r0 + r1 + (r2 + r3)) (r4 + r5 + (r6 + r7))
             (Z.abs r0 + Z.abs r1 + (Z.abs r2 + Z.abs r3))
             (Z.abs r4 + Z.abs r5 + (Z.abs r6 + Z.abs r7))) by lia.
  f_equal; unfold sum_list; cbn [fold_right]; ring.
Qed.

Lemma pairwise_exact fuel ys :
  length ys <= fuel -> (sum_abs ys <= 2 ^ 53)%Z ->
  pairwise_sum fuel (map inject_Z ys) = inject_Z (sum_list ys).
Proof.
  revert ys; induction fuel as [|fuel IH]; intros ys Hl Hb.
  - destruct ys; [reflexivity|simpl in Hl; lia].
  - cbn [pairwise_sum]; rewrite length_map.
    destruct (Nat.ltb_spec (length ys) 8) as [H8|H8].
    { change 0%Q with (inject_Z 0); rewrite (fold_exact ys 0 0) by (cbn; lia).
      reflexivity. }
    destruct (Nat.leb_spec (length ys) 128) as [H128|H128].
    + set (n := length ys) in *.
      pose proof (Nat.div_mod_eq n 8) as Hdm.
      pose proof (Nat.mod_upper_bound n 8 ltac:(lia)) as Hmb.
      assert (Hm : n - n mod 8 = n / 8 * 8) by lia.
      rewrite Hm, Nat.div_mul by lia.
      rewrite firstn_map, !skipn_map.
      set (k := n / 8 - 1).
      assert (Hk : 8 * k = n / 8 * 8 - 8) by (unfold k; lia).
      assert (Hsplit : ys = firstn 8 ys ++ firstn (8 * k) (skipn 8 ys) ++
                            skipn (n / 8 * 8) ys).
      { rewrite <- (firstn_skipn 8 ys) at 1; f_equal.
        replace (n / 8 * 8) with (8 * k + 8) by lia.
        rewrite <- skipn_skipn, firstn_skipn; reflexivity. }
      assert (Hsa := f_equal sum_abs Hsplit); rewrite !sum_abs_app in Hsa.
      assert (Hsl := f_equal sum_list Hsplit); rewrite !sum_list_app in Hsl.
      pose proof (sum_abs_nonneg (skipn (n / 8 * 8) ys)).
      destruct (add_blocks_exact k (firstn 8 ys) (skipn 8 ys))
        as [rs' [E1 [E2 [E3 E4]]]].
      * rewrite length_firstn; lia.
      * rewrite length_skipn; lia.
      * lia.
      * rewrite E1.
        destruct rs' as [|r0 [|r1 [|r2 [|r3 [|r4 [|r5 [|r6 [|r7 [|r8 rs']]]]]]]]];
          cbn [length] in E2; try lia.
        cbn [map nth].
        pose proof (abs_sum_le [r0; r1; r2; r3; r4; r5; r6; r7]).
        rewrite tree8_exact by lia.
        rewrite (fold_exact _ _ (sum_abs [r0; r1; r2; r3; r4; r5; r6; r7])) by lia.
        f_equal; lia.
    + destruct fuel as [|fuel']; [lia|].
      set (n := length ys) in *.
      set (n2 := n / 2 - n / 2 mod 8).
      pose proof (Nat.div_mod_eq n 2) as Hdm.
      pose proof (Nat.mod_upper_bound n 2 ltac:(lia)) as Hmb.
      pose proof (Nat.mod_upper_bound (n / 2) 8 ltac:(lia)) as Hmb8.
      assert (Hn2 : 1 <= n2 < n) by (unfold n2; lia).
      rewrite firstn_map, skipn_map.
      assert (Hsplit := firstn_skipn n2 ys).
      assert (Hsa := f_equal sum_abs Hsplit); rewrite !sum_abs_app in Hsa.
      assert (Hsl := f_equal sum_list Hsplit); rewrite !sum_list_app in Hsl.
      pose proof (sum_abs_nonneg (firstn n2 ys)).
      pose proof (sum_abs_nonneg (skipn n2 ys)).
      rewrite !IH.
      * rewrite (fadd_exact _ _ (sum_abs (firstn n2 ys)) (sum_abs (skipn n2 ys)))
          by (apply abs_sum_le || lia).
        now rewrite Hsl.
      * rewrite length_skipn; lia.
      * lia.
      * rewrite length_firstn; lia.
      * lia.
Qed.

Lemma NPY_BUFSIZE_pos : 0 < NPY_BUFSIZE.
Proof. unfold NPY_BUFSIZE; cbn; lia. Qed.

Lemma buffered_exact k ys s a :
  (Z.abs s <= a)%Z -> (a + sum_abs ys <= 2 ^ 53)%Z ->
  buffered_sum k (inject_Z s) (map inject_Z ys) =
    inject_Z (s + sum_list (firstn (k * NPY_BUFSIZE) ys)).
Proof.
  revert ys s a; induction k as [|k IH]; intros ys s a Hs Hb.
  - cbn [buffered_sum]; replace (0 * NPY_BUFSIZE) with 0 by lia; rewrite firstn_O.
    now rewrite sum_list_nil, Z.add_0_r.
  - cbn [buffered_sum]; rewrite firstn_map, skipn_map, length_map.
    assert (Hsplit := firstn_skipn NPY_BUFSIZE ys).
    assert (Hsa := f_equal sum_abs Hsplit); rewrite !sum_abs_app in Hsa.
    pose proof (sum_abs_nonneg (firstn NPY_BUFSIZE ys)).
    pose proof (sum_abs_nonneg (skipn NPY_BUFSIZE ys)).
    rewrite pairwise_exact by (lia || reflexivity).
    rewrite (fadd_exact s _ a (sum_abs (firstn NPY_BUFSIZE ys)))
      by (apply abs_sum_le || lia).
    rewrite (IH _ _ (a + sum_abs (firstn NPY_BUFSIZE ys))%Z)
      by (pose proof (abs_sum_le (firstn NPY_BUFSIZE ys)); lia).
    rewrite Nat.mul_succ_l, Nat.add_comm, firstn_add, sum_list_app.
    f_equal; ring.
Qed.

Lemma float64_sum_exact vs :
  (sum_abs vs <= 2 ^ 53)%Z -> float64_sum vs = inject_Z (sum_list vs).
Proof.
  intros Hb; unfold float64_sum.
  rewrite (map_ext_in _ inject_Z vs)
    by (intros v Hv; apply round64_int; pose proof (sum_abs_In v vs Hv); lia).
  change 0%Q with (inject_Z 0); rewrite (buffered_exact _ vs 0 0) by (cbn; lia).
  rewrite length_map, firstn_all2; [reflexivity|].
  pose proof NPY_BUFSIZE_pos.
  pose proof (Nat.div_mod_eq (length vs + NPY_BUFSIZE - 1) NPY_BUFSIZE).
  pose proof (Nat.mod_upper_bound (length vs + NPY_BUFSIZE - 1) NPY_BUFSIZE
                ltac:(lia)).
  nia.
Qed.

Lemma pandas_mean_exact vs :
  (sum_abs vs <= 2 ^ 53)%Z -> (Z.of_nat (length vs) <= 2 ^ 53)%Z ->
  pandas_mean vs = round64 (mean_Q vs).
Proof.
  intros Hb Hn; unfold pandas_mean, mean_Q.
  rewrite float64_sum_exact by exact Hb.
  now rewrite round64_int by lia.
Qed.

Lemma Zpow_63_64 : (2 ^ 64 = 2 * 2 ^ 63)%Z.
Proof. reflexivity. Qed.

Lemma wrap64_add_l a b : wrap64 (wrap64 a + b) = wrap64 (a + b).
Proof.
  unfold wrap64.
  replace ((a + 2 ^ 63) mod 2 ^ 64 - 2 ^ 63 + b + 2 ^ 63)%Z
    with ((a + 2 ^ 63) mod 2 ^ 64 + b)%Z by ring.
  rewrite Z.add_mod_idemp_l by (apply Z.pow_nonzero; lia).
  f_equal; f_equal; ring.
Qed.

Lemma wrap64_sub_l a b : wrap64 (wrap64 a - b) = wrap64 (a - b).
Proof. exact (wrap64_add_l a (- b)). Qed.

Lemma int64_fold xs a :
  fold_left (fun acc x => wrap64 (acc + x)) xs (wrap64 a) = wrap64 (a + sum_list xs).
Proof.
  revert a; induction xs as [|x xs IH]; intros a; cbn [fold_left].
  - now rewrite sum_list_nil, Z.add_0_r.
  - rewrite wrap64_add_l, IH, sum_list_cons; f_equal; ring.
Qed.

Lemma int64_sum_wrap xs : int64_sum xs = wrap64 (sum_list xs).
Proof.
  unfold int64_sum.
  change 0%Z with (wrap64 0) at 1; rewrite int64_fold; reflexivity.
Qed.

Lemma wrap64_small z : (- 2 ^ 63 <= z < 2 ^ 63)%Z -> wrap64 z = z.
Proof.
  intros Hz; unfold wrap64; pose proof Zpow_63_64.
  rewrite Z.mod_small by lia; ring.
Qed.

Lemma fmt_int_0f_exact z : (Z.abs z <= 2 ^ 53)%Z -> fmt_int_0f z = z.
Proof.
  intros Hz; unfold fmt_int_0f; rewrite round64_int by exact Hz.
  apply round_ne_int; reflexivity.
Qed.

Lemma round_ne_Qeq x y : x == y -> round_ne x = round_ne y.
Proof.
  intros H; unfold round_ne; cbv zeta.
  assert (Hf : Qfloor x = Qfloor y) by (now rewrite H).
  rewrite Hf.
  assert (Hc : (x - inject_Z (Qfloor y) ?= 1 # 2)%Q = (y - inject_Z (Qfloor y) ?= 1 # 2)%Q)
    by (now rewrite H).
  now rewrite Hc.
Qed.

Lemma round_ne_cases (a : Z) (b : positive) :
  (round_ne (a # b) = (a / Zpos b)%Z /\
     (2 * (a - a / Zpos b * Zpos b) <= Zpos b)%Z) \/
  (round_ne (a # b) = (a / Zpos b + 1)%Z /\
     (Zpos b <= 2 * (a - a / Zpos b * Zpos b))%Z).
Proof.
  unfold round_ne; change (Qfloor (a # b)) with (a / Zpos b)%Z.
  destruct (Qcompare_spec ((a # b) - inject_Z (a / Zpos b)) (1 # 2)) as [H|H|H];
    unfold Qeq, Qlt, Qminus, Qplus, Qopp, inject_Z in H; cbn [Qnum Qden] in H;
    rewrite ?Pos2Z.inj_mul in H.
  - destruct (Z.even (a / Zpos b)); [left|right]; split; auto; lia.
  - left; split; auto; lia.
  - right; split; auto; lia.
Qed.

Lemma round_ne_le x h : (x <= inject_Z h)%Q -> (round_ne x <= h)%Z.
Proof.
  destruct x as [a b]; intros Hx; unfold Qle in Hx; cbn [Qnum Qden inject_Z] in Hx.
  pose proof (Z.mul_div_le a (Zpos b) ltac:(lia)) as Hd.
  destruct (round_ne_cases a b) as [[-> Hc]|[-> Hc]]; nia.
Qed.

Lemma round_ne_ge x l : (inject_Z l <= x)%Q -> (l <= round_ne x)%Z.
Proof.
  destruct x as [a b]; intros Hx; unfold Qle in Hx; cbn [Qnum Qden inject_Z] in Hx.
  pose proof (Z.mul_div_le a (Zpos b) ltac:(lia)) as Hd.
  pose proof (Z.mod_pos_bound a (Zpos b) ltac:(lia)) as Hm.
  pose proof (Z.div_mod a (Zpos b) ltac:(lia)) as Hdm.
  destruct (round_ne_cases a b) as [[-> Hc]|[-> Hc]]; nia.
Qed.

Lemma pow2_nonneg e : (0 <= pow2 e)%Q.
Proof.
  unfold pow2; destruct (0 <=? e)%Z eqn:E.
  - apply Z.leb_le in E; change 0%Q with (inject_Z 0); rewrite <- Zle_Qle.
    apply Z.pow_nonneg; lia.
  - unfold Qle; simpl; lia.
Qed.

Lemma qlog2_lower x : (0 < x)%Q -> (pow2 (qlog2 x) <= x)%Q.
Proof.
  destruct x as [a b]; intros Hx; unfold Qlt in Hx; cbn [Qnum Qden] in Hx.
  assert (Ha : (0 < a)%Z) by lia.
  unfold qlog2; cbn [Qnum Qden].
  destruct (Z.log2_spec a Ha) as [Ha1 _].
  destruct (Z.log2_spec (Zpos b) ltac:(lia)) as [_ Hb2].
  pose proof (Z.log2_nonneg a); pose proof (Z.log2_nonneg (Zpos b)).
  set (A := Z.log2 a) in *; set (B := Z.log2 (Zpos b)) in *.
  destruct (Qle_bool (pow2 (A - B)) (a # b)) eqn:E; [now apply Qle_bool_iff|].
  unfold pow2; destruct (Z.leb_spec 0 (A - B - 1)) as [He|He].
  - unfold Qle; cbn [Qnum Qden inject_Z].
    assert (Hp : (2 ^ (A - B - 1) * 2 ^ Z.succ B = 2 ^ A)%Z).
    { rewrite <- Z.pow_add_r by lia; f_equal; lia. }
    pose proof (Z.pow_pos_nonneg 2 (A - B - 1) ltac:(lia) He).
    nia.
  - unfold Qle; cbn [Qnum Qden].
    rewrite Z2Pos.id by (apply pow2_pos_Z; lia).
    assert (Hp : (2 ^ A * 2 ^ (- (A - B - 1)) = 2 ^ Z.succ B)%Z).
    { rewrite <- Z.pow_add_r by lia; f_equal; lia. }
    pose proof (Z.pow_pos_nonneg 2 (- (A - B - 1)) ltac:(lia) ltac:(lia)).
    nia.
Qed.

Lemma round64_between q lo hi :
  (Z.abs lo <= 2 ^ 53)%Z -> (Z.abs hi <= 2 ^ 53)%Z ->
  (inject_Z lo <= q)%Q -> (q <= inject_Z hi)%Q ->
  (inject_Z lo <= round64 q)%Q /\ (round64 q <= inject_Z hi)%Q.
Proof.
  intros Hlo Hhi Hq1 Hq2.
  assert (Hab : (Qabs q <= inject_Z (2 ^ 53))%Q).
  { apply Qabs_Qle_condition; split.
    - apply Qle_trans with (inject_Z lo); [|exact Hq1].
      change (- inject_Z (2 ^ 53))%Q with (inject_Z (- 2 ^ 53)); rewrite <- Zle_Qle; lia.
    - apply Qle_trans with (inject_Z hi); [exact Hq2|rewrite <- Zle_Qle; lia]. }
  destruct (Qlt_le_dec (Qabs q) (inject_Z (2 ^ 53))) as [Hlt|Hge].
  2:{ assert (Heq : (Qabs q == inject_Z (2 ^ 53))%Q) by (apply Qle_antisym; assumption).
      assert (Hz : exists z, q == inject_Z z /\ (Z.abs z <= 2 ^ 53)%Z).
      { destruct (Qlt_le_dec q 0) as [Hn|Hn].
        - rewrite Qabs_neg in Heq by (now apply Qlt_le_weak).
          exists (- 2 ^ 53)%Z; split; [|lia].
          change (inject_Z (- 2 ^ 53)) with (- inject_Z (2 ^ 53))%Q.
          rewrite <- Heq; symmetry; apply Qopp_opp.
        - rewrite Qabs_pos in Heq by exact Hn.
          exists (2 ^ 53)%Z; split; [exact Heq|lia]. }
      destruct Hz as [z [Hqz Hz]].
      rewrite (round64_Qeq q (inject_Z z) Hqz), round64_int by exact Hz.
      rewrite <- Hqz; split; assumption. }
  unfold round64.
  pose proof (Qred_correct q) as Hred.
  set (q' := Qred q) in *.
  destruct (Qeq_bool q' 0) eqn:E.
  { apply Qeq_bool_iff in E; rewrite <- Hred, E in Hq1, Hq2; split; assumption. }
  assert (Hne : ~ (q' == 0)%Q) by (intros H; apply Qeq_bool_iff in H; congruence).
  assert (Hpos : (0 < Qabs q')%Q).
  { destruct (Qlt_le_dec 0 (Qabs q')) as [H|H]; [exact H|].
    exfalso; apply Hne; apply Qabs_Qle_condition in H.
    destruct H; apply Qle_antisym; [assumption|].
    apply Qle_trans with (- 0)%Q; [unfold Qle; simpl; lia|assumption]. }
  assert (HL : (qlog2 (Qabs q') <= 52)%Z).
  { destruct (Z.le_gt_cases (qlog2 (Qabs q')) 52) as [H|H]; [exact H|exfalso].
    pose proof (qlog2_lower _ Hpos) as Hl.
    unfold pow2 in Hl; destruct (Z.leb_spec 0 (qlog2 (Qabs q'))); [|lia].
    assert (Hp : (2 ^ 53 <= 2 ^ qlog2 (Qabs q'))%Z) by (apply Z.pow_le_mono_r; lia).
    rewrite Zle_Qle in Hp.
    assert ((Qabs q' == Qabs q)%Q) by (now rewrite Hred).
    apply (Qlt_irrefl (Qabs q)).
    apply Qlt_le_trans with (inject_Z (2 ^ 53)); [exact Hlt|].
    apply Qle_trans with (inject_Z (2 ^ qlog2 (Qabs q'))); [exact Hp|].
    rewrite <- H1; exact Hl. }
  set (k := (- Z.max (qlog2 (Qabs q') - 52) (-1074))%Z).
  assert (Hk : (0 <= k)%Z) by (unfold k; lia).
  replace (Z.max (qlog2 (Qabs q') - 52) (-1074))%Z with (- k)%Z by (unfold k; lia).
  rewrite (round_ne_Qeq _ _ (Qdiv_pow2_neg q' k Hk)).
  set (m := round_ne (q' * inject_Z (2 ^ k))).
  assert (Hm1 : (m <= hi * 2 ^ k)%Z).
  { apply round_ne_le; rewrite inject_Z_mult.
    apply Qmult_le_compat_r; [now rewrite Hred|].
    change 0%Q with (inject_Z 0); rewrite <- Zle_Qle; apply Z.pow_nonneg; lia. }
  assert (Hm2 : (lo * 2 ^ k <= m)%Z).
  { apply round_ne_ge; rewrite inject_Z_mult.
    apply Qmult_le_compat_r; [now rewrite Hred|].
    change 0%Q with (inject_Z 0); rewrite <- Zle_Qle; apply Z.pow_nonneg; lia. }
  rewrite Qred_correct; split.
  - rewrite <- (pow2_neg_mul lo k Hk).
    apply Qmult_le_compat_r; [rewrite <- Zle_Qle; exact Hm2|apply pow2_nonneg].
  - rewrite <- (pow2_neg_mul hi k Hk).
    apply Qmult_le_compat_r; [rewrite <- Zle_Qle; exact Hm1|apply pow2_nonneg].
Qed.

(** ** A run of [print_statistics] on a table with rows *)

Lemma bind_deref {B} d t (k : table -> M B) w :
  nth_error (w_heap w) d = Some t -> bindM (deref d) k w = k t w.
Proof. intros H; unfold bindM, deref; now rewrite H. Qed.

Lemma print_statistics_run w d t :
  nth_error (w_heap w) d = Some t -> rows t <> [] ->
  exists ls,
    map l_name ls = List.filter (fun c => negb (is_time_col c)) (columns t) /\
    Forall (line_spec t) ls /\
    print_statistics d w =
      let pre := stat_header ++ map OLine ls ++
                 [OText sep80; OTimesteps (Z.of_nat (length (rows t)))] in
      match get_col t TIME_COL with
      | Ok ts =>
          (emit w (pre ++ [OInitTotal (fmt_int_0f (wrap64
                             (int64_sum (hd [] (rows t)) - hd 0%Z ts)));
                           OFinalTotal (fmt_int_0f (wrap64
                             (int64_sum (List.last (rows t) []) - List.last ts 0%Z)));
                           OText sep80]), Ok tt)
      | Err e => (emit w pre, Err e)
      end.
Proof.
  intros Hd Hne.
  destruct (stat_loop t (columns t) (emit w stat_header) Hne (incl_refl _))
    as [ls [Hrun [Hnames Hspec]]].
  exists ls; split; [exact Hnames|]; split; [exact Hspec|].
  unfold print_statistics; rewrite (bind_deref _ _ _ _ Hd).
  rewrite !seq_print, !emit_emit.
  rewrite (bind_ok _ _ _ _ _ Hrun).
  rewrite !seq_print, !emit_emit.
  destruct (rows t) as [|r0 rs] eqn:Er; [congruence|].
  simpl iloc_first; rewrite bind_lift_ok.
  destruct (get_col t TIME_COL) as [ts|e] eqn:Eg.
  - rewrite bind_lift_ok.
    assert (Hts : exists x xs, ts = x :: xs).
    { unfold get_col in Eg; rewrite Er in Eg.
      destruct (index_of TIME_COL (columns t)); [|discriminate].
      injection Eg as <-; simpl; eauto. }
    destruct Hts as [x [xs ->]].
    simpl iloc_first; rewrite bind_lift_ok, seq_print.
    simpl iloc_last; rewrite bind_lift_ok, bind_lift_ok.
    simpl iloc_last; rewrite bind_lift_ok, !seq_print, !emit_emit.
    rewrite print_run, emit_emit, !last_cons; cbv zeta; cbn [hd].
    f_equal; f_equal; rewrite <- ?app_assoc; reflexivity.
  - rewrite bind_lift_err; rewrite <- ?app_assoc; reflexivity.
Qed.

Lemma out_lines_app a b : out_lines (a ++ b) = out_lines a ++ out_lines b.
Proof.
  induction a as [|o a IH]; [reflexivity|].
  destruct o; simpl; rewrite ?IH; reflexivity.
Qed.

Lemma out_lines_map ls : out_lines (map OLine ls) = ls.
Proof. induction ls as [|l ls IH]; simpl; [|rewrite IH]; reflexivity. Qed.

Lemma last_map_nonempty {A B} (f : A -> B) xs d d' :
  xs <> [] -> List.last (map f xs) d' = f (List.last xs d).
Proof.
  induction xs as [|x xs IH]; [congruence|]; intros _.
  destruct xs as [|y xs]; [reflexivity|].
  change (List.last (map f (y :: xs)) d' = f (List.last (y :: xs) d)).
  apply IH; discriminate.
Qed.

Lemma line_spec_values t l :
  rows t <> [] -> line_spec t l ->
  exists i, nth_error (columns t) i = Some (l_name l) /\
    let vs := column_values t i in
    l_initial l = nth i (hd [] (rows t)) 0%Z /\
    l_final l = nth i (List.last (rows t) []) 0%Z /\
    ((sum_abs vs <= 2 ^ 53)%Z -> (Z.of_nat (length (rows t)) <= 2 ^ 53)%Z ->
     l_mean l = fmt_1f (round64 (mean_Q vs))) /\
    In (l_max l) vs /\ Forall (fun v => (v <= l_max l)%Z) vs /\
    In (l_min l) vs /\ Forall (fun v => (l_min l <= v)%Z) vs.
Proof.
  intros Hne [i [Hi [Hini [Hfin [Hmean [Hmax Hmin]]]]]].
  exists i; split; [now apply index_of_nth_error|].
  assert (Hvs : column_values t i <> []).
  { unfold column_values; destruct (rows t); [congruence|discriminate]. }
  assert (Hlen : length (column_values t i) = length (rows t))
    by (unfold column_values; apply length_map).
  cbv zeta; rewrite Hmax, Hmin.
  destruct (max_Z_spec _ Hvs) as [Hm1 Hm2].
  destruct (min_Z_spec _ Hvs) as [Hn1 Hn2].
  repeat split; auto.
  - rewrite Hini; unfold column_values; destruct (rows t); [congruence|reflexivity].
  - rewrite Hfin; unfold column_values.
    exact (last_map_nonempty (fun r => nth i r 0%Z) (rows t) [] 0%Z Hne).
  - intros Hb Hn; rewrite Hmean, pandas_mean_exact; [reflexivity|exact Hb|].
    now rewrite Hlen.
Qed.

(** ** Population totals *)

Lemma species_sum_no_time cs r :
  ~ In TIME_COL cs -> length r = length cs ->
  sum_list (map snd (List.filter (fun p => negb (is_time_col (fst p)))
                                 (combine cs r))) = sum_list r.
Proof.
  revert r; induction cs as [|c cs IH]; intros [|x r] Hn Hl; simpl in *;
    try discriminate; try reflexivity.
  unfold is_time_col; destruct (String.eqb_spec c TIME_COL) as [->|Hne].
  - exfalso; apply Hn; now left.
  - simpl; rewrite IH; auto.
Qed.

Lemma sum_minus_time cs r i :
  List.NoDup cs -> length r = length cs -> index_of TIME_COL cs = Some i ->
  (sum_list r - nth i r 0 =
   sum_list (map snd (List.filter (fun p => negb (is_time_col (fst p)))
                                  (combine cs r))))%Z.
Proof.
  revert r i; induction cs as [|c cs IH]; intros [|x r] i Hnd Hl Hi;
    try discriminate.
  inversion Hnd as [|? ? Hnin Hnd']; subst.
  change (index_of TIME_COL (c :: cs)) with
    (if String.eqb TIME_COL c then Some 0
     else match index_of TIME_COL cs with Some j => Some (S j) | None => None end)
    in Hi.
  cbn [combine List.filter map snd fst sum_list fold_right].
  destruct (String.eqb TIME_COL c) eqn:Ec.
  - apply String.eqb_eq in Ec; subst c.
    injection Hi as <-.
    change (negb (is_time_col TIME_COL)) with false; cbn [nth].
    rewrite species_sum_no_time by (auto; simpl in Hl; lia).
    fold (sum_list r); lia.
  - destruct (index_of TIME_COL cs) as [j|] eqn:Ej; [|discriminate].
    injection Hi as <-.
    assert (Hc : is_time_col c = false).
    { unfold is_time_col; rewrite String.eqb_sym; exact Ec. }
    rewrite Hc; cbn [negb map snd fst fold_right nth].
    fold (sum_list r).
    fold (sum_list (map snd (List.filter (fun p => negb (is_time_col (fst p)))
                                         (combine cs r)))).
    rewrite <- (IH r j); auto; simpl in Hl; lia.
Qed.

Lemma row_total t r i :
  table_wf t -> In r (rows t) -> index_of TIME_COL (columns t) = Some i ->
  wrap64 (int64_sum r - nth i r 0%Z) = wrap64 (species_total t r).
Proof.
  intros [Hnd Hlen] Hr Hi.
  rewrite int64_sum_wrap, wrap64_sub_l; f_equal; unfold species_total.
  apply sum_minus_time; auto.
  exact (proj1 (List.Forall_forall _ _) Hlen r Hr).
Qed.

Lemma last_In_nonempty {A} (xs : list A) d : xs <> [] -> In (List.last xs d) xs.
Proof.
  induction xs as [|x xs IH]; [congruence|]; intros _.
  destruct xs as [|y xs]; [now left|].
  right; apply IH; discriminate.
Qed.

Lemma In_map_OLine o ls : In o (map OLine ls) -> exists l, o = OLine l.
Proof. intros H; apply in_map_iff in H; destruct H as [l [<- _]]; eauto. Qed.

(** Splits a membership in a printed trace into its cases. *)
Ltac trace_cases H :=
  try unfold stat_header in H;
  repeat (rewrite in_app_iff in H);
  repeat match type of H with
    | _ \/ _ => destruct H as [H|H]
    | In _ (map OLine _) =>
        let l := fresh "l" in
        destruct (In_map_OLine _ _ H) as [l ?]; discriminate
    | In _ [] => destruct H
    | In _ (_ :: _) => destruct H as [H|H]
    end;
  try discriminate.

(** A total of at most 2^53 in absolute value is printed as it is. *)
Lemma total_printed_exact z :
  (Z.abs z <= 2 ^ 53)%Z -> fmt_int_0f (wrap64 z) = z.
Proof.
  intros Hz.
  assert (H53 : (2 ^ 53 < 2 ^ 63)%Z) by (vm_compute; reflexivity).
  rewrite wrap64_small by lia; now apply fmt_int_0f_exact.
Qed.

(** * Claims *)

(** C1 (counterexample): the column Deer holds the single value
    9007199254740993 = 2^53 + 1, which is its arithmetic mean. pandas' mean
    casts it to the double 2^53, so the report prints 9007199254740992.0,
    while the mean to one decimal place is 9007199254740993.0. *)
Lemma print_statistics_mean_rounding :
  out_lines (w_stdout (fst (print_statistics 0 (world_with [] [big_deer] 0)))) =
    [mk_line "Deer" 9007199254740993 9007199254740993 90071992547409920
             9007199254740993 9007199254740993] /\
  (mean_Q (column_values big_deer 1) == inject_Z 9007199254740993)%Q /\
  fmt_1f (mean_Q (column_values big_deer 1)) = 90071992547409930%Z.
Proof. split; [|split]; vm_compute; reflexivity. Qed.

(** C1 (corrected): on a table with at least one row, the reporter prints
    one line per non-time column, in column order (so exactly K lines for K
    non-time columns) and the row count N; the line of a column shows that
    column's value in the first row (initial) and in the last row (final)
    and its true maximum and minimum. The printed mean is the column's
    arithmetic mean rounded to the nearest double and then to one decimal
    (ties to even), when the absolute values of the column sum to at most
    2^53 and N is at most 2^53: then pandas' float64 sum is exact. Beyond
    that it can differ from the mean, see
    [print_statistics_mean_rounding]. *)
Theorem print_statistics_lines (w : world) (d : loc) (t : table) :
  nth_error (w_heap w) d = Some t -> rows t <> [] ->
  exists os,
    w_stdout (fst (print_statistics d w)) = w_stdout w ++ os /\
    map l_name (out_lines os) =
      List.filter (fun c => negb (is_time_col c)) (columns t) /\
    length (out_lines os) =
      length (List.filter (fun c => negb (is_time_col c)) (columns t)) /\
    In (OTimesteps (Z.of_nat (length (rows t)))) os /\
    (forall n, In (OTimesteps n) os -> n = Z.of_nat (length (rows t))) /\
    Forall (fun l => exists i,
      nth_error (columns t) i = Some (l_name l) /\
      let vs := column_values t i in
      l_initial l = nth i (hd [] (rows t)) 0%Z /\
      l_final l = nth i (List.last (rows t) []) 0%Z /\
      ((sum_abs vs <= 2 ^ 53)%Z -> (Z.of_nat (length (rows t)) <= 2 ^ 53)%Z ->
       l_mean l = fmt_1f (round64 (mean_Q vs))) /\
      In (l_max l) vs /\ Forall (fun v => (v <= l_max l)%Z) vs /\
      In (l_min l) vs /\ Forall (fun v => (l_min l <= v)%Z) vs) (out_lines os).
Proof.
  intros Hd Hne.
  destruct (print_statistics_run w d t Hd Hne) as [ls [Hnames [Hspec Hrun]]].
  rewrite Hrun; cbv zeta.
  set (tail := match get_col t TIME_COL with
               | Ok ts => [OInitTotal (fmt_int_0f (wrap64
                             (int64_sum (hd [] (rows t)) - hd 0%Z ts)));
                           OFinalTotal (fmt_int_0f (wrap64
                             (int64_sum (List.last (rows t) []) - List.last ts 0%Z)));
                           OText sep80]
               | Err _ => [] end).
  exists (stat_header ++ map OLine ls ++
          [OText sep80; OTimesteps (Z.of_nat (length (rows t)))] ++ tail).
  assert (Hlines : out_lines (stat_header ++ map OLine ls ++
            [OText sep80; OTimesteps (Z.of_nat (length (rows t)))] ++ tail) = ls).
  { rewrite !out_lines_app, out_lines_map.
    unfold tail; destruct (get_col t TIME_COL); simpl; now rewrite app_nil_r. }
  rewrite Hlines; split; [|split; [exact Hnames|split; [|split; [|split]]]].
  - unfold tail; destruct (get_col t TIME_COL); simpl; unfold emit; simpl;
      now rewrite <- ?app_assoc.
  - now rewrite <- Hnames, length_map.
  - apply in_app_iff; right; apply in_app_iff; right; simpl; auto.
  - intros n Hn; unfold tail in Hn; destruct (get_col t TIME_COL);
      trace_cases Hn; congruence.
  - eapply List.Forall_impl; [|exact Hspec].
    intros l Hl; now apply line_spec_values.
Qed.

(** C2 (counterexample): the first row holds 5 * 10^18 for Deer and for
    Fox, so the sum of its species columns is 10^19. pandas adds the row in
    int64, which wraps around: the report prints -8446744073709551616 as the
    initial (and final) total. *)
Lemma print_statistics_total_overflow :
  species_total big_row (hd [] (rows big_row)) = 10000000000000000000%Z /\
  In (OInitTotal (-8446744073709551616))
     (w_stdout (fst (print_statistics 0 (world_with [] [big_row] 0)))) /\
  In (OFinalTotal (-8446744073709551616))
     (w_stdout (fst (print_statistics 0 (world_with [] [big_row] 0)))) /\
  ~ In (OInitTotal 10000000000000000000)
       (w_stdout (fst (print_statistics 0 (world_with [] [big_row] 0)))).
Proof.
  split; [reflexivity|split; [|split]].
  - vm_compute; repeat (first [left; reflexivity | right]).
  - vm_compute; repeat (first [left; reflexivity | right]).
  - vm_compute; intuition discriminate.
Qed.

(** C2 (corrected): on a table with at least one row, a printed "Initial
    total population" is the sum of the species (non-time) columns of the
    first row and a printed "Final total population" that of the last row,
    as pandas computes it: wrapped around into int64 and printed through the
    nearest double; the time column's value is in neither. When the sum is
    at most 2^53 in absolute value, that is the sum itself. Both are printed
    when the table has its time column. Larger sums can print otherwise, see
    [print_statistics_total_overflow]. *)
Theorem print_statistics_totals (w : world) (d : loc) (t : table) :
  nth_error (w_heap w) d = Some t -> table_wf t -> rows t <> [] ->
  exists os,
    w_stdout (fst (print_statistics d w)) = w_stdout w ++ os /\
    (forall z, In (OInitTotal z) os ->
       z = fmt_int_0f (wrap64 (species_total t (hd [] (rows t)))) /\
       ((Z.abs (species_total t (hd [] (rows t))) <= 2 ^ 53)%Z ->
        z = species_total t (hd [] (rows t)))) /\
    (forall z, In (OFinalTotal z) os ->
       z = fmt_int_0f (wrap64 (species_total t (List.last (rows t) []))) /\
       ((Z.abs (species_total t (List.last (rows t) [])) <= 2 ^ 53)%Z ->
        z = species_total t (List.last (rows t) []))) /\
    (In TIME_COL (columns t) ->
       In (OInitTotal (fmt_int_0f (wrap64 (species_total t (hd [] (rows t)))))) os /\
       In (OFinalTotal (fmt_int_0f (wrap64 (species_total t (List.last (rows t) []))))) os).
Proof.
  intros Hd Hwf Hne.
  destruct (print_statistics_run w d t Hd Hne) as [ls [_ [_ Hrun]]].
  rewrite Hrun; cbv zeta.
  destruct (get_col t TIME_COL) as [ts|e] eqn:Eg.
  - unfold get_col in Eg.
    destruct (index_of TIME_COL (columns t)) as [i|] eqn:Ei; [|discriminate].
    injection Eg as <-.
    assert (Hfirst : hd 0%Z (map (fun r => nth i r 0%Z) (rows t)) =
                     nth i (hd [] (rows t)) 0%Z)
      by (destruct (rows t); [congruence|reflexivity]).
    assert (Hlast : List.last (map (fun r => nth i r 0%Z) (rows t)) 0%Z =
                    nth i (List.last (rows t) []) 0%Z)
      by exact (last_map_nonempty (fun r => nth i r 0%Z) (rows t) [] 0%Z Hne).
    rewrite Hfirst, Hlast.
    assert (H0 : In (hd [] (rows t)) (rows t))
      by (destruct (rows t); [congruence|now left]).
    rewrite (row_total t (hd [] (rows t)) i Hwf H0 Ei).
    rewrite (row_total t (List.last (rows t) []) i Hwf
               (last_In_nonempty _ _ Hne) Ei).
    eexists; split; [unfold emit; reflexivity|].
    split; [|split].
    + intros z Hz; trace_cases Hz; injection Hz as <-.
      split; [reflexivity|intros Hb; apply total_printed_exact; exact Hb].
    + intros z Hz; trace_cases Hz; injection Hz as <-.
      split; [reflexivity|intros Hb; apply total_printed_exact; exact Hb].
    + intros _; split; rewrite !in_app_iff; right; cbn [In]; tauto.
  - eexists; split; [unfold emit; reflexivity|].
    split; [|split].
    + intros z Hz; trace_cases Hz.
    + intros z Hz; trace_cases Hz.
    + intros Hin; destruct (get_col_In t TIME_COL Hin) as [i [Hg _]]; congruence.
Qed.

(** ** Runs of the two chart renderers *)

Lemma with_figs_twice w a b : with_figs (with_figs w a) b = with_figs w b.
Proof. reflexivity. Qed.

Lemma add_series_twice a b x : add_series b (add_series a x) = add_series (a ++ b) x.
Proof. unfold add_series; simpl; now rewrite app_assoc. Qed.

Lemma add_series_nil x : add_series [] x = x.
Proof. destruct x; unfold add_series; simpl; now rewrite app_nil_r. Qed.

Lemma on_current_compose f g fs :
  on_current f (on_current g fs) = on_current (fun x => f (g x)) fs.
Proof. now destruct fs. Qed.

Lemma on_current_id f fs : (forall x, f x = x) -> on_current f fs = fs.
Proof. intros H; destruct fs; simpl; now rewrite ?H. Qed.

Lemma get_col_of t c v : get_col t c = Ok v -> col_of t c = v.
Proof. unfold col_of; now intros ->. Qed.

Lemma plot_loop t k p ts cs w :
  get_col t TIME_COL = Ok ts ->
  (forall c, In c cs -> p c = true -> In c (columns t)) ->
  for_each cs (plot_body t k p) w =
  (with_figs w (on_current (alter (add_series (series_for t ts (List.filter p cs))) k)
                           (w_figs w)), Ok tt).
Proof.
  intros Hts; revert w; induction cs as [|c cs IH]; intros w Hin.
  - simpl; unfold retM; f_equal; destruct w; unfold with_figs; simpl; f_equal.
    symmetry; apply on_current_id; intros x.
    apply list_alter_id; intros a; apply add_series_nil.
  - assert (Hin' : forall c', In c' cs -> p c' = true -> In c' (columns t))
      by (intros c' ? ?; apply Hin; auto; now right).
    simpl; unfold plot_body at 1.
    destruct (p c) eqn:Ep.
    + destruct (get_col_In t c (Hin c (or_introl eq_refl) Ep)) as [i [Hc _]].
      rewrite Hts, Hc.
      assert (Hstep : (let* x := lift (Ok ts) in
                       let* y := lift (Ok (column_values t i)) in
                       plot_on k (mk_series c x y)) w =
        (with_figs w (on_current
           (alter (add_series [mk_series c ts (column_values t i)]) k)
           (w_figs w)), Ok tt)) by reflexivity.
      rewrite (bind_ok _ _ _ _ _ Hstep).
      rewrite IH by exact Hin'.
      simpl; rewrite with_figs_twice; do 2 f_equal.
      destruct (w_figs w) as [|fig fs]; [reflexivity|]; simpl; f_equal.
      rewrite list_alter_alter_eq; apply list_alter_ext; [intros a _|reflexivity].
      unfold compose; rewrite add_series_twice; unfold series_for; simpl.
      now rewrite (get_col_of t c _ Hc).
    + unfold bindM, retM; rewrite IH by exact Hin'; reflexivity.
Qed.

Lemma seq_modify f (k : M unit) w : (modify_figs f ;; k) w = k (with_figs w (f (w_figs w))).
Proof. reflexivity. Qed.

Lemma in_columns_In t c : in_columns t c = true -> In c (columns t).
Proof.
  unfold in_columns; intros H; apply existsb_exists in H.
  destruct H as [c' [Hin Heq]]; apply String.eqb_eq in Heq; now subst.
Qed.

Lemma plot_all_populations_run w d t ts output :
  nth_error (w_heap w) d = Some t -> get_col t TIME_COL = Ok ts ->
  plot_all_populations d output w =
  (after_chart w output [axes_of (series_for t ts (nontime_columns t))], Ok tt).
Proof.
  intros Hd Hts.
  pose proof (plot_loop t 0 (fun c => negb (is_time_col c)) ts (columns t)
                (with_figs w [[empty_axes]]) Hts (fun c H _ => H)) as Hl.
  unfold plot_body in Hl; cbv beta in Hl.
  unfold plot_all_populations; rewrite (bind_deref _ _ _ _ Hd).
  unfold close_all, new_figure, legend_on, close_current.
  rewrite !seq_modify.
  rewrite (bind_ok _ _ _ _ _ Hl).
  reflexivity.
Qed.

Lemma draw_panel_run t k group ts w :
  get_col t TIME_COL = Ok ts ->
  draw_panel t k group w =
  (with_figs w (on_current (alter (fun a =>
      mk_axes (ax_series a ++ series_for t ts (List.filter (in_columns t) group))
              (List.filter legend_shown (map s_label (ax_series a ++
                 series_for t ts (List.filter (in_columns t) group))))) k)
     (w_figs w)), Ok tt).
Proof.
  intros Hts.
  pose proof (plot_loop t k (in_columns t) ts group w Hts
                (fun c _ H => in_columns_In t c H)) as Hl.
  unfold plot_body in Hl.
  unfold draw_panel, legend_on.
  rewrite (bind_ok _ _ _ _ _ Hl).
  unfold modify_figs, with_figs; simpl; f_equal; f_equal.
  destruct (w_figs w) as [|fig fs]; [reflexivity|]; simpl; f_equal.
  rewrite list_alter_alter_eq; reflexivity.
Qed.

Lemma plot_trophic_levels_run w d t ts output :
  nth_error (w_heap w) d = Some t -> get_col t TIME_COL = Ok ts ->
  plot_trophic_levels d output w =
  (after_chart w output
     (map (fun g => axes_of (series_for t ts (List.filter (in_columns t) g)))
          trophic_groups), Ok tt).
Proof.
  intros Hd Hts.
  unfold plot_trophic_levels; rewrite (bind_deref _ _ _ _ Hd).
  unfold close_all, new_figure, close_current.
  rewrite !seq_modify.
  rewrite (bind_ok _ _ _ _ _ (draw_panel_run t 0 producers ts _ Hts)).
  rewrite (bind_ok _ _ _ _ _ (draw_panel_run t 1 herbivores ts _ Hts)).
  rewrite (bind_ok _ _ _ _ _ (draw_panel_run t 2 predators ts _ Hts)).
  reflexivity.
Qed.

Lemma find_write_file path f fs : find_file path (write_file path f fs) = Some f.
Proof.
  induction fs as [|[p g] fs IH]; simpl.
  - now rewrite String.eqb_refl.
  - destruct (String.eqb_spec p path) as [->|Hne]; simpl.
    + now rewrite String.eqb_refl.
    + apply String.eqb_neq in Hne; now rewrite Hne.
Qed.

Lemma series_for_labels t ts cs : map s_label (series_for t ts cs) = cs.
Proof.
  unfold series_for; rewrite map_map; simpl.
  induction cs as [|c cs IH]; simpl; [|rewrite IH]; reflexivity.
Qed.

Lemma In_filter_in_columns t c g :
  In c (List.filter (in_columns t) g) <-> In c (columns t) /\ In c g.
Proof.
  rewrite filter_In; split.
  - intros [Hg Hc]; split; [now apply in_columns_In|exact Hg].
  - intros [Hc Hg]; split; [exact Hg|].
    unfold in_columns; apply existsb_exists; exists c; split;
      [exact Hc|apply String.eqb_refl].
Qed.

Lemma get_col_TIME_In t :
  In TIME_COL (columns t) -> exists ts, get_col t TIME_COL = Ok ts.
Proof. intros H; destruct (get_col_In t _ H) as [i [Hg _]]; eauto. Qed.

Lemma series_for_data t ts cs :
  get_col t TIME_COL = Ok ts -> incl cs (columns t) ->
  Forall (fun s => get_col t TIME_COL = Ok (s_x s) /\
                   get_col t (s_label s) = Ok (s_y s)) (series_for t ts cs).
Proof.
  intros Hts Hincl; unfold series_for.
  apply List.Forall_forall; intros s Hs.
  apply in_map_iff in Hs; destruct Hs as [c [<- Hc]]; simpl.
  split; [exact Hts|].
  destruct (get_col_In t c (Hincl c Hc)) as [i [Hg _]].
  now rewrite (get_col_of t c _ Hg).
Qed.

(** C4: when the table has its time column, the trophic chart is drawn
    without error and saved with three panels; a column is drawn in a panel
    exactly when its name is both a column of the table and in that panel's
    fixed group; a column in none of the groups is drawn in no panel. *)
Theorem trophic_panel_membership (w : world) (d : loc) (t : table)
  (output : string) :
  nth_error (w_heap w) d = Some t -> In TIME_COL (columns t) ->
  snd (plot_trophic_levels d output w) = Ok tt /\
  exists img,
    find_file output (w_files (fst (plot_trophic_levels d output w))) =
      Some (PngFile img) /\
    length img = 3 /\
    Forall2 (fun a g => forall c,
               In c (map s_label (ax_series a)) <-> In c (columns t) /\ In c g)
            img [producers; herbivores; predators] /\
    (forall c, In c (columns t) ->
       ~ In c producers -> ~ In c herbivores -> ~ In c predators ->
       forall a, In a img -> ~ In c (map s_label (ax_series a))).
Proof.
  intros Hd Htime.
  destruct (get_col_TIME_In t Htime) as [ts Hts].
  rewrite (plot_trophic_levels_run w d t ts output Hd Hts).
  unfold after_chart; cbn [fst snd w_files].
  split; [reflexivity|].
  eexists; split; [apply find_write_file|].
  unfold trophic_groups, axes_of; cbn [map ax_series].
  rewrite !series_for_labels.
  split; [reflexivity|split].
  - do 3 (apply List.Forall2_cons;
      [intros c; cbn [ax_series]; rewrite series_for_labels;
       apply In_filter_in_columns|]).
    apply List.Forall2_nil.
  - intros c _ Hp Hh Hq a Ha.
    destruct Ha as [<-|[<-|[<-|[]]]]; cbn [ax_series];
      rewrite series_for_labels, In_filter_in_columns; tauto.
Qed.

(** C5 (counterexample): on a table whose one species column is named
    _Deer, the all-populations chart draws the _Deer line, but matplotlib
    leaves it out of the legend, which has no entry. *)
Lemma all_populations_hidden_label :
  find_file "population_dynamics.png"
    (w_files (fst (plot_all_populations 0 "population_dynamics.png"
                     (world_with [] [hidden_label] 0)))) =
  Some (PngFile [mk_axes [mk_series "_Deer" [0; 1]%Z [5; 6]%Z] []]).
Proof. vm_compute; reflexivity. Qed.

(** C5 (corrected): when the table has its time column, the
    all-populations chart is drawn without error and saved with one axes
    holding exactly one series per non-time column (x: the time column, y:
    the column). The legend has one entry per series whose label matplotlib
    shows (not empty, not starting with an underscore), in series order, so
    a column named with a leading underscore gets a line but no legend
    entry (see [all_populations_hidden_label]). On the columns TimeStep,
    Deer, Wildflowers, Fox, UnknownCritter that is 4 series and 4 legend
    entries. *)
Theorem all_populations_series (w : world) (d : loc) (t : table)
  (output : string) :
  nth_error (w_heap w) d = Some t -> In TIME_COL (columns t) ->
  snd (plot_all_populations d output w) = Ok tt /\
  exists a,
    find_file output (w_files (fst (plot_all_populations d output w))) =
      Some (PngFile [a]) /\
    map s_label (ax_series a) = nontime_columns t /\
    ax_legend a = List.filter legend_shown (map s_label (ax_series a)) /\
    Forall (fun s => get_col t TIME_COL = Ok (s_x s) /\
                     get_col t (s_label s) = Ok (s_y s)) (ax_series a) /\
    (columns t = ["TimeStep"; "Deer"; "Wildflowers"; "Fox"; "UnknownCritter"] ->
     length (ax_series a) = 4 /\ length (ax_legend a) = 4).
Proof.
  intros Hd Htime.
  destruct (get_col_TIME_In t Htime) as [ts Hts].
  rewrite (plot_all_populations_run w d t ts output Hd Hts).
  unfold after_chart; cbn [fst snd w_files].
  split; [reflexivity|].
  eexists; split; [apply find_write_file|].
  unfold axes_of; cbn [ax_series ax_legend].
  split; [apply series_for_labels|split; [reflexivity|split]].
  - apply series_for_data; [exact Hts|].
    intros c Hc; unfold nontime_columns in Hc; apply filter_In in Hc; tauto.
  - intros Hcols; unfold series_for, nontime_columns; rewrite Hcols.
    split; reflexivity.
Qed.

(** ** [load_data] and [main] on a missing input file *)

Lemma load_data_missing_run w path :
  find_file path (w_files w) = None ->
  load_data path w = (emit w [OText (missing_msg path)], Err (SystemExit 1)).
Proof.
  intros H; unfold load_data, path_exists, bindM; rewrite H; reflexivity.
Qed.

Lemma load_data_present_result w path f :
  find_file path (w_files w) = Some f ->
  snd (load_data path w) = Err ParseError \/
  exists d, snd (load_data path w) = Ok d.
Proof.
  intros H; unfold load_data, path_exists, read_csv, bindM; rewrite H; simpl.
  rewrite H; destruct f as [[t|]|img]; simpl; eauto.
Qed.

Lemma main_missing_run w :
  find_file "ecosystem_data.csv" (w_files w) = None ->
  main w = (emit w [OText "Ecosystem Data Visualization Tool";
                    OText "==================================================";
                    OText (missing_msg "ecosystem_data.csv")],
            Err (SystemExit 1)).
Proof.
  intros H; unfold main; rewrite !seq_print, emit_emit.
  rewrite (bind_err _ _ _ _ _
    (load_data_missing_run (emit w [OText "Ecosystem Data Visualization Tool";
       OText "=================================================="]) _ H)).
  now rewrite emit_emit.
Qed.

(** ** The table is never written *)

Create HintDb frame.

Lemma heap_frame_bind {A B} (m : M A) (k : A -> M B) :
  heap_frame m -> (forall a, heap_frame (k a)) -> heap_frame (bindM m k).
Proof.
  intros Hm Hk w; unfold bindM.
  specialize (Hm w); destruct (m w) as [w' [a|e]]; simpl in *; [|exact Hm].
  now rewrite Hk.
Qed.

Lemma heap_frame_if {A} (b : bool) (m1 m2 : M A) :
  heap_frame m1 -> heap_frame m2 -> heap_frame (if b then m1 else m2).
Proof. now destruct b. Qed.

Lemma heap_frame_for_each {A} (xs : list A) (body : A -> M unit) :
  (forall x, heap_frame (body x)) -> heap_frame (for_each xs body).
Proof.
  intros Hb; induction xs as [|x xs IH]; simpl.
  - intros w; reflexivity.
  - apply heap_frame_bind; auto.
Qed.

Lemma heap_frame_ret {A} (a : A) : heap_frame (retM a).
Proof. intros w; reflexivity. Qed.
Lemma heap_frame_lift {A} (r : res A) : heap_frame (lift r).
Proof. intros w; reflexivity. Qed.
Lemma heap_frame_print o : heap_frame (print o).
Proof. intros w; reflexivity. Qed.
Lemma heap_frame_modify f : heap_frame (modify_figs f).
Proof. intros w; reflexivity. Qed.
Lemma heap_frame_savefig p : heap_frame (savefig p).
Proof. intros w; reflexivity. Qed.
Lemma heap_frame_deref d : heap_frame (deref d).
Proof. intros w; unfold deref; now destruct (nth_error (w_heap w) d). Qed.

#[local] Hint Resolve heap_frame_ret heap_frame_lift heap_frame_print
  heap_frame_modify heap_frame_savefig heap_frame_deref : frame.

Ltac frame_tac :=
  repeat (cbv zeta; first
    [ apply heap_frame_bind; [|intros ?]
    | apply heap_frame_for_each; intros ?
    | apply heap_frame_if
    | solve [eauto with frame] ]).

Lemma print_statistics_frame d : heap_frame (print_statistics d).
Proof. unfold print_statistics, stat_line; frame_tac. Qed.

Lemma plot_all_populations_frame d o : heap_frame (plot_all_populations d o).
Proof.
  unfold plot_all_populations, close_all, new_figure, plot_on, legend_on,
    close_current; frame_tac.
Qed.

Lemma plot_trophic_levels_frame d o : heap_frame (plot_trophic_levels d o).
Proof.
  unfold plot_trophic_levels, draw_panel, close_all, new_figure, plot_on,
    legend_on, close_current; frame_tac.
Qed.

(** ** [print_statistics] on a table without rows *)

Lemma stat_loop_empty t cs w :
  rows t = [] -> incl cs (columns t) ->
  (exists c, In c cs /\ is_time_col c = false) ->
  exists w', for_each cs (stat_body t) w = (w', Err IndexError).
Proof.
  intros Hr; revert w; induction cs as [|c cs IH]; intros w Hincl [c0 [Hc0 Hnt]].
  - destruct Hc0.
  - assert (Hcs : incl cs (columns t)) by (intros x Hx; apply Hincl; now right).
    simpl; unfold stat_body at 1.
    destruct (is_time_col c) eqn:Ec; simpl.
    + destruct Hc0 as [<-|Hc0]; [congruence|].
      destruct (IH w Hcs (ex_intro _ c0 (conj Hc0 Hnt))) as [w' Hw'].
      exists w'; unfold bindM, retM; exact Hw'.
    + destruct (index_of_In c _ (Hincl c (or_introl eq_refl))) as [i [Hi _]].
      exists w; unfold bindM, stat_line, get_col, lift; rewrite Hi, Hr.
      reflexivity.
Qed.

Lemma print_statistics_empty_rows w d t :
  nth_error (w_heap w) d = Some t -> rows t = [] ->
  (exists c, In c (columns t) /\ is_time_col c = false) ->
  snd (print_statistics d w) = Err IndexError.
Proof.
  intros Hd Hr Hc.
  destruct (stat_loop_empty t (columns t) (emit w stat_header) Hr (incl_refl _) Hc)
    as [w' Hl].
  unfold print_statistics; rewrite (bind_deref _ _ _ _ Hd), !seq_print, !emit_emit.
  now rewrite (bind_err _ _ _ _ _ Hl).
Qed.

Lemma print_statistics_no_index_error w d t :
  nth_error (w_heap w) d = Some t -> rows t <> [] ->
  snd (print_statistics d w) <> Err IndexError.
Proof.
  intros Hd Hne.
  destruct (print_statistics_run w d t Hd Hne) as [ls [_ [_ Hrun]]].
  rewrite Hrun; cbv zeta.
  destruct (get_col t TIME_COL) as [ts|e] eqn:Eg; simpl; [discriminate|].
  unfold get_col in Eg; destruct (index_of TIME_COL (columns t)); [discriminate|].
  injection Eg as <-; discriminate.
Qed.

(** C3: on a path that names no existing file, [load_data] prints
    "Error: <path> not found" and raises SystemExit(1), writing no file;
    [main] then ends with exit status 1 and the file system unchanged (no
    chart). On an existing path, [load_data] does not exit: it returns the
    table or fails in the CSV parser. *)
Theorem load_data_missing_exits (w : world) (path : string) :
  (find_file path (w_files w) = None ->
     load_data path w =
       (emit w [OText ("Error: " +:+ path +:+ " not found")], Err (SystemExit 1)) /\
     w_files (fst (load_data path w)) = w_files w) /\
  (forall f, find_file path (w_files w) = Some f ->
     snd (load_data path w) <> Err (SystemExit 1)) /\
  (find_file "ecosystem_data.csv" (w_files w) = None ->
     snd (main w) = Err (SystemExit 1) /\ w_files (fst (main w)) = w_files w).
Proof.
  split; [|split].
  - intros H; rewrite (load_data_missing_run w path H); split; reflexivity.
  - intros f H; destruct (load_data_present_result w path f H) as [E|[d E]];
      rewrite E; discriminate.
  - intros H; rewrite (main_missing_run w H); split; reflexivity.
Qed.

(** C8: [print_statistics], [plot_all_populations] and
    [plot_trophic_levels] write no DataFrame: the heap holding the loaded
    table is the same after each of them, and after the three in sequence,
    so every row and column keeps its value from load time. *)
Theorem operations_keep_table (w : world) (d : loc) (o1 o2 : string) :
  w_heap (fst (print_statistics d w)) = w_heap w /\
  w_heap (fst (plot_all_populations d o1 w)) = w_heap w /\
  w_heap (fst (plot_trophic_levels d o2 w)) = w_heap w /\
  (let w1 := fst (print_statistics d w) in
   let w2 := fst (plot_all_populations d o1 w1) in
   let w3 := fst (plot_trophic_levels d o2 w2) in
   nth_error (w_heap w3) d = nth_error (w_heap w) d).
Proof.
  split; [apply print_statistics_frame|].
  split; [apply plot_all_populations_frame|].
  split; [apply plot_trophic_levels_frame|].
  cbv zeta.
  now rewrite plot_trophic_levels_frame, plot_all_populations_frame,
    print_statistics_frame.
Qed.

(** C9: with zero rows and at least one non-time column, the reporter ends
    in the out-of-bounds IndexError of [iloc]; with at least one row that
    error is never raised. *)
Theorem print_statistics_index_error (w : world) (d : loc) (t : table) :
  nth_error (w_heap w) d = Some t ->
  (rows t = [] -> (exists c, In c (columns t) /\ is_time_col c = false) ->
     snd (print_statistics d w) = Err IndexError) /\
  (rows t <> [] -> snd (print_statistics d w) <> Err IndexError).
Proof.
  intros Hd; split.
  - intros Hr Hc; now apply (print_statistics_empty_rows w d t).
  - intros Hne; now apply (print_statistics_no_index_error w d t).
Qed.

(** ** Identification of the time column *)

Lemma is_time_col_false c : is_time_col c = false <-> c <> "TimeStep".
Proof.
  unfold is_time_col, TIME_COL; rewrite String.eqb_neq; reflexivity.
Qed.

Lemma plot_loop_err t k p cs w e :
  get_col t TIME_COL = Err e -> (exists c, In c cs /\ p c = true) ->
  exists w', for_each cs (plot_body t k p) w = (w', Err e).
Proof.
  intros He; revert w; induction cs as [|c cs IH]; intros w [c0 [Hc0 Hp]].
  - destruct Hc0.
  - simpl; unfold plot_body at 1.
    destruct (p c) eqn:Ep.
    + exists w; unfold bindM at 1 2; unfold lift; rewrite He; reflexivity.
    + destruct Hc0 as [<-|Hc0]; [congruence|].
      destruct (IH w (ex_intro _ c0 (conj Hc0 Hp))) as [w' Hw'].
      exists w'; unfold bindM, retM; exact Hw'.
Qed.

Lemma plot_all_populations_no_time w d t output :
  nth_error (w_heap w) d = Some t -> ~ In TIME_COL (columns t) ->
  (exists c, In c (columns t) /\ c <> TIME_COL) ->
  snd (plot_all_populations d output w) = Err (KeyError TIME_COL).
Proof.
  intros Hd Hn [c [Hc Hne]].
  assert (Hl := plot_loop_err t 0 (fun c => negb (is_time_col c)) (columns t)
                  (with_figs w [[empty_axes]]) _ (get_col_not_In t _ Hn)).
  destruct Hl as [w' Hl].
  { exists c; split; [exact Hc|]; apply negb_true_iff, is_time_col_false; exact Hne. }
  unfold plot_body in Hl; cbv beta in Hl.
  unfold plot_all_populations; rewrite (bind_deref _ _ _ _ Hd).
  unfold close_all, new_figure; rewrite !seq_modify.
  now rewrite (bind_err _ _ _ _ _ Hl).
Qed.

Lemma print_statistics_names w d t :
  nth_error (w_heap w) d = Some t -> rows t <> [] ->
  exists os, w_stdout (fst (print_statistics d w)) = w_stdout w ++ os /\
             map l_name (out_lines os) = nontime_columns t.
Proof.
  intros Hd Hne.
  destruct (print_statistics_run w d t Hd Hne) as [ls [Hnames [_ Hrun]]].
  rewrite Hrun; cbv zeta.
  destruct (get_col t TIME_COL); (eexists; split; [reflexivity|]);
    rewrite !out_lines_app, out_lines_map; simpl; rewrite ?app_nil_r;
    exact Hnames.
Qed.

Lemma all_populations_labels w d t output :
  nth_error (w_heap w) d = Some t -> In TIME_COL (columns t) ->
  snd (plot_all_populations d output w) = Ok tt /\
  exists a,
    find_file output (w_files (fst (plot_all_populations d output w))) =
      Some (PngFile [a]) /\
    map s_label (ax_series a) = nontime_columns t.
Proof.
  intros Hd Htime.
  destruct (get_col_TIME_In t Htime) as [ts Hts].
  rewrite (plot_all_populations_run w d t ts output Hd Hts).
  unfold after_chart; cbn [fst snd w_files].
  split; [reflexivity|].
  eexists; split; [apply find_write_file|].
  apply series_for_labels.
Qed.

(** C10: the time column is the column named exactly "TimeStep". Any other
    column (e.g. "timestep") gets a line in the report and a series in the
    all-populations chart, and in the trophic chart it is drawn by group
    membership alone, against the "TimeStep" values. Without a "TimeStep"
    column but with another column, [plot_all_populations] raises
    KeyError('TimeStep'); with one it completes. *)
Theorem time_column_exact_name (w : world) (d : loc) (t : table)
  (output : string) :
  nth_error (w_heap w) d = Some t ->
  (rows t <> [] -> forall c, In c (columns t) -> c <> "TimeStep" ->
     exists os, w_stdout (fst (print_statistics d w)) = w_stdout w ++ os /\
                In c (map l_name (out_lines os))) /\
  (In "TimeStep" (columns t) -> forall c, In c (columns t) -> c <> "TimeStep" ->
     exists a,
       find_file output (w_files (fst (plot_all_populations d output w))) =
         Some (PngFile [a]) /\ In c (map s_label (ax_series a))) /\
  (In "TimeStep" (columns t) ->
     exists img,
       find_file output (w_files (fst (plot_trophic_levels d output w))) =
         Some (PngFile img) /\
       Forall2 (fun a g => map s_label (ax_series a) = List.filter (in_columns t) g)
               img [producers; herbivores; predators] /\
       Forall (fun a => Forall (fun s => get_col t "TimeStep" = Ok (s_x s))
                               (ax_series a)) img) /\
  (~ In "TimeStep" (columns t) -> (exists c, In c (columns t) /\ c <> "TimeStep") ->
     snd (plot_all_populations d output w) = Err (KeyError "TimeStep")) /\
  (In "TimeStep" (columns t) -> snd (plot_all_populations d output w) = Ok tt).
Proof.
  intros Hd; split; [|split; [|split; [|split]]].
  - intros Hne c Hc Hnt.
    destruct (print_statistics_names w d t Hd Hne) as [os [Hos Hnames]].
    exists os; split; [exact Hos|].
    rewrite Hnames; unfold nontime_columns; apply filter_In; split; [exact Hc|].
    apply negb_true_iff, is_time_col_false; exact Hnt.
  - intros Htime c Hc Hnt.
    destruct (all_populations_labels w d t output Hd Htime)
      as [_ [a [Hf Hl]]].
    exists a; split; [exact Hf|].
    rewrite Hl; unfold nontime_columns; apply filter_In; split; [exact Hc|].
    apply negb_true_iff, is_time_col_false; exact Hnt.
  - intros Htime.
    destruct (get_col_TIME_In t Htime) as [ts Hts].
    rewrite (plot_trophic_levels_run w d t ts output Hd Hts).
    unfold after_chart; cbn [fst w_files].
    eexists; split; [apply find_write_file|].
    unfold trophic_groups, axes_of; cbn [map ax_series].
    split.
    + do 3 (apply List.Forall2_cons; [cbn [ax_series]; apply series_for_labels|]).
      apply List.Forall2_nil.
    + assert (Hg : forall g, incl (List.filter (in_columns t) g) (columns t)).
      { intros g c Hc; apply filter_In in Hc; now apply in_columns_In. }
      repeat constructor;
        (eapply List.Forall_impl; [|apply (series_for_data t ts _ Hts (Hg _))]);
        intros s [Hx _]; exact Hx.
  - intros Hn Hc; apply (plot_all_populations_no_time w d t output Hd Hn Hc).
  - intros Htime; now destruct (all_populations_labels w d t output Hd Htime).
Qed.

(** ** Output order *)

(** C6 (counterexample): the producers panel of the trophic chart draws
    Wildflowers before Berries although the table lists Berries first: the
    panel follows its fixed group order, not the table's column order. *)
Lemma trophic_order_not_column_order :
  exists img,
    find_file "trophic_levels.png"
      (w_files (fst (plot_trophic_levels 0 "trophic_levels.png"
                       (world_with [] [reversed_producers] 0)))) =
      Some (PngFile img) /\
    map s_label (ax_series (hd empty_axes img)) = ["Wildflowers"; "Berries"] /\
    List.filter (fun c => existsb (String.eqb c) producers)
                (columns reversed_producers) = ["Berries"; "Wildflowers"].
Proof.
  eexists; split; [reflexivity|]; split; reflexivity.
Qed.

(** C6 (amended): report lines and all-populations series follow the
    table's column order; each trophic panel follows the order of its fixed
    group, restricted to the columns present in the table. *)
Theorem output_order (w : world) (d : loc) (t : table) (o1 o2 : string) :
  nth_error (w_heap w) d = Some t -> rows t <> [] -> In TIME_COL (columns t) ->
  (exists os, w_stdout (fst (print_statistics d w)) = w_stdout w ++ os /\
              map l_name (out_lines os) = nontime_columns t) /\
  (exists a, find_file o1 (w_files (fst (plot_all_populations d o1 w))) =
               Some (PngFile [a]) /\
             map s_label (ax_series a) = nontime_columns t) /\
  (exists img, find_file o2 (w_files (fst (plot_trophic_levels d o2 w))) =
                 Some (PngFile img) /\
               map (fun a => map s_label (ax_series a)) img =
               map (List.filter (in_columns t)) [producers; herbivores; predators]).
Proof.
  intros Hd Hne Htime; split; [|split].
  - exact (print_statistics_names w d t Hd Hne).
  - destruct (all_populations_labels w d t o1 Hd Htime) as [_ [a [Hf Hl]]].
    exists a; split; [exact Hf|exact Hl].
  - destruct (get_col_TIME_In t Htime) as [ts Hts].
    rewrite (plot_trophic_levels_run w d t ts o2 Hd Hts).
    unfold after_chart; cbn [fst w_files].
    eexists; split; [apply find_write_file|].
    unfold trophic_groups, axes_of; cbn [map ax_series].
    now rewrite !series_for_labels.
Qed.

(** ** Chart file names *)

Lemma saved_files_app a b : saved_files (a ++ b) = saved_files a ++ saved_files b.
Proof.
  induction a as [|o a IH]; [reflexivity|].
  destruct o; simpl; rewrite ?IH; reflexivity.
Qed.

Lemma saved_files_map_OLine ls : saved_files (map OLine ls) = [].
Proof. induction ls; simpl; auto. Qed.

Lemma string_length_app (a b : string) :
  String.length (a +:+ b) = String.length a + String.length b.
Proof. induction a as [|c a IH]; simpl; auto. Qed.

Lemma string_app_cancel_r (a b x : string) : a +:+ x = b +:+ x -> a = b.
Proof.
  revert b; induction a as [|c a IH]; intros [|c' b] H; simpl in H.
  - reflexivity.
  - exfalso; apply (f_equal String.length) in H; simpl in H.
    rewrite !string_length_app in H; simpl in H; lia.
  - exfalso; apply (f_equal String.length) in H; simpl in H.
    rewrite !string_length_app in H; simpl in H; lia.
  - injection H as -> H; f_equal; now apply IH.
Qed.

Lemma string_app_cancel_l (p a b : string) : p +:+ a = p +:+ b -> a = b.
Proof.
  induction p as [|c p IH]; simpl; intros H; [exact H|].
  injection H as H; now apply IH.
Qed.

Lemma pop_file_inj a b : pop_file a = pop_file b <-> a = b.
Proof.
  split; [|now intros ->].
  unfold pop_file; intros H.
  apply string_app_cancel_l, string_app_cancel_r in H.
  now apply (inj pretty).
Qed.

Lemma troph_file_inj a b : troph_file a = troph_file b <-> a = b.
Proof.
  split; [|now intros ->].
  unfold troph_file; intros H.
  apply string_app_cancel_l, string_app_cancel_r in H.
  now apply (inj pretty).
Qed.

Lemma find_write_file_ne p q f fs :
  p <> q -> find_file p (write_file q f fs) = find_file p fs.
Proof.
  intros Hne; induction fs as [|[r g] fs IH]; simpl.
  - destruct (String.eqb_spec q p); [congruence|reflexivity].
  - destruct (String.eqb_spec r q) as [->|Hrq]; simpl.
    + destruct (String.eqb_spec q p); [congruence|reflexivity].
    + now rewrite IH.
Qed.

Lemma load_data_ok_run w path t :
  find_file path (w_files w) = Some (CsvFile (Some t)) ->
  load_data path w =
  (mk_world (w_files w) (w_heap w ++ [t]) (w_figs w)
     (w_stdout w ++ [OLoaded (Z.of_nat (length (rows t)))
                             (Z.of_nat (length (columns t)) - 1)])
     (w_clock w), Ok (length (w_heap w))).
Proof.
  intros H; unfold load_data, path_exists, read_csv, bindM; rewrite H; simpl.
  now rewrite H.
Qed.

Lemma nth_error_snoc {A} (l : list A) x : nth_error (l ++ [x]) (length l) = Some x.
Proof. induction l; simpl; auto. Qed.

Lemma bind_get_time {B} (k : Q -> M B) w : bindM get_time k w = k (w_clock w) w.
Proof. reflexivity. Qed.

(** A successful run of [main]: both charts are saved under the names built
    from [int(time.time())], and the "Saved: ..." lines report them. *)
Lemma main_ok_run w t :
  find_file "ecosystem_data.csv" (w_files w) = Some (CsvFile (Some t)) ->
  rows t <> [] -> In TIME_COL (columns t) ->
  exists img1 img2,
    snd (main w) = Ok tt /\
    w_files (fst (main w)) =
      write_file (troph_file (py_int (w_clock w))) (PngFile img2)
        (write_file (pop_file (py_int (w_clock w))) (PngFile img1) (w_files w)) /\
    w_clock (fst (main w)) = w_clock w /\
    saved_files (w_stdout (fst (main w))) =
      saved_files (w_stdout w) ++
      [pop_file (py_int (w_clock w)); troph_file (py_int (w_clock w))].
Proof.
  intros Hf Hne Htime.
  destruct (get_col_TIME_In t Htime) as [ts Hts].
  set (W0 := emit w [OText "Ecosystem Data Visualization Tool";
                     OText "=================================================="]).
  assert (Hl : load_data "ecosystem_data.csv" W0 =
    (mk_world (w_files w) (w_heap w ++ [t]) (w_figs w)
       (w_stdout W0 ++ [OLoaded (Z.of_nat (length (rows t)))
                                (Z.of_nat (length (columns t)) - 1)])
       (w_clock w), Ok (length (w_heap w))))
    by exact (load_data_ok_run W0 _ t Hf).
  set (W1 := mk_world (w_files w) (w_heap w ++ [t]) (w_figs w)
       (w_stdout W0 ++ [OLoaded (Z.of_nat (length (rows t)))
                                (Z.of_nat (length (columns t)) - 1)])
       (w_clock w)) in Hl.
  assert (Hd : nth_error (w_heap W1) (length (w_heap w)) = Some t)
    by apply nth_error_snoc.
  destruct (print_statistics_run W1 _ t Hd Hne) as [ls [_ [_ Hps]]].
  rewrite Hts in Hps; cbv zeta iota beta in Hps.
  unfold main; rewrite !seq_print, emit_emit; fold W0.
  rewrite (bind_ok _ _ _ _ _ Hl).
  rewrite (bind_ok _ _ _ _ _ Hps).
  rewrite bind_get_time; cbv zeta beta.
  rewrite seq_print.
  match goal with
  | |- context [bindM (plot_all_populations _ ?o) _ ?W] =>
      rewrite (bind_ok _ _ _ _ _ (plot_all_populations_run W _ t ts o Hd Hts))
  end.
  match goal with
  | |- context [bindM (plot_trophic_levels _ ?o) _ ?W] =>
      rewrite (bind_ok _ _ _ _ _ (plot_trophic_levels_run W _ t ts o Hd Hts))
  end.
  rewrite seq_print, print_run.
  do 2 eexists.
  unfold after_chart, emit, W1, W0; cbn [fst snd w_files w_clock w_stdout].
  split; [reflexivity|split; [reflexivity|split; [reflexivity|]]].
  rewrite !saved_files_app, saved_files_map_OLine; simpl.
  rewrite !app_nil_r, <- !app_assoc, saved_files_app, app_nil_r; reflexivity.
Qed.

Lemma pop_troph_ne a b : pop_file a <> troph_file b.
Proof. unfold pop_file, troph_file; simpl; intros H; inversion H. Qed.

Lemma csv_pop_ne a : "ecosystem_data.csv" <> pop_file a.
Proof. unfold pop_file; simpl; intros H; inversion H. Qed.

Lemma csv_troph_ne a : "ecosystem_data.csv" <> troph_file a.
Proof. unfold troph_file; simpl; intros H; inversion H. Qed.

(** C7 (counterexample): two consecutive runs started at 1700000000.25 and
    1700000000.75 both succeed and both save population_dynamics_1700000000.png
    and trophic_levels_1700000000.png: the second run overwrites the first
    run's charts, and the directory holds only one pair of chart files. *)
Lemma same_second_runs_overwrite :
  snd (main sample_dir) = Ok tt /\
  snd (main (second_run sample_dir clock_b)) = Ok tt /\
  saved_files (w_stdout (fst (main sample_dir))) =
    ["population_dynamics_1700000000.png"; "trophic_levels_1700000000.png"] /\
  saved_files (w_stdout (fst (main (second_run sample_dir clock_b)))) =
    ["population_dynamics_1700000000.png"; "trophic_levels_1700000000.png";
     "population_dynamics_1700000000.png"; "trophic_levels_1700000000.png"] /\
  map fst (w_files (fst (main (second_run sample_dir clock_b)))) =
    ["ecosystem_data.csv"; "population_dynamics_1700000000.png";
     "trophic_levels_1700000000.png"].
Proof. vm_compute. repeat split. Qed.

(** C7 (amended): a run on a data file with rows and a time column saves its
    charts as population_dynamics_<n>.png and trophic_levels_<n>.png, where
    <n> is int(time.time()), the clock truncated to whole seconds. For two
    consecutive runs in the same directory the names coincide exactly when
    both runs start within the same whole second; when the seconds differ,
    the second run leaves the first run's chart files as they were. *)
Theorem chart_files_per_second (w : world) (t : table) (q : Q) :
  find_file "ecosystem_data.csv" (w_files w) = Some (CsvFile (Some t)) ->
  rows t <> [] -> In TIME_COL (columns t) ->
  snd (main w) = Ok tt /\ snd (main (second_run w q)) = Ok tt /\
  saved_files (w_stdout (fst (main (second_run w q)))) =
    saved_files (w_stdout w) ++
    [pop_file (py_int (w_clock w)); troph_file (py_int (w_clock w));
     pop_file (py_int q); troph_file (py_int q)] /\
  (pop_file (py_int (w_clock w)) = pop_file (py_int q) <->
   py_int (w_clock w) = py_int q) /\
  (troph_file (py_int (w_clock w)) = troph_file (py_int q) <->
   py_int (w_clock w) = py_int q) /\
  (py_int (w_clock w) <> py_int q ->
   find_file (pop_file (py_int (w_clock w))) (w_files (fst (main (second_run w q)))) =
     find_file (pop_file (py_int (w_clock w))) (w_files (fst (main w))) /\
   find_file (troph_file (py_int (w_clock w))) (w_files (fst (main (second_run w q)))) =
     find_file (troph_file (py_int (w_clock w))) (w_files (fst (main w)))).
Proof.
  intros Hf Hne Ht.
  destruct (main_ok_run w t Hf Hne Ht) as [i1 [i2 [Hok1 [Hfiles1 [_ Hs1]]]]].
  assert (Hf2 : find_file "ecosystem_data.csv" (w_files (second_run w q)) =
                Some (CsvFile (Some t))).
  { unfold second_run, set_clock; cbn [w_files]; rewrite Hfiles1.
    rewrite !find_write_file_ne by (apply csv_pop_ne || apply csv_troph_ne).
    exact Hf. }
  destruct (main_ok_run (second_run w q) t Hf2 Hne Ht)
    as [j1 [j2 [Hok2 [Hfiles2 [_ Hs2]]]]].
  change (w_clock (second_run w q)) with q in Hfiles2, Hs2.
  split; [exact Hok1|split; [exact Hok2|split; [|split; [|split]]]].
  - rewrite Hs2; unfold second_run, set_clock; cbn [w_stdout].
    rewrite Hs1, <- app_assoc; reflexivity.
  - apply pop_file_inj.
  - apply troph_file_inj.
  - intros Hneq; rewrite Hfiles2; unfold second_run, set_clock; cbn [w_files].
    split; rewrite !find_write_file_ne; try reflexivity.
    + intros H; apply Hneq; now apply pop_file_inj.
    + apply pop_troph_ne.
    + intros H; symmetry in H; now apply pop_troph_ne in H.
    + intros H; apply Hneq; now apply troph_file_inj.
Qed.

(** * Witnesses: each claim's theorem applied to a concrete input *)

Lemma print_statistics_lines_witness :
  nth_error (w_heap sample_world) 0 = Some sample /\ rows sample <> [] /\
  exists os,
    w_stdout (fst (print_statistics 0 sample_world)) = w_stdout sample_world ++ os /\
    map l_name (out_lines os) = ["Deer"; "Wildflowers"; "Fox"; "UnknownCritter"] /\
    In (OTimesteps 5) os /\
    exists l, In l (out_lines os) /\ l_name l = "Deer" /\ l_mean l = 124%Z.
Proof.
  split; [reflexivity|split; [discriminate|]].
  destruct (print_statistics_lines sample_world 0 sample eq_refl
              ltac:(discriminate)) as [os [Hos [Hn [_ [Hts [_ Hall]]]]]].
  exists os; split; [exact Hos|split; [rewrite Hn; reflexivity|split; [exact Hts|]]].
  destruct (out_lines os) as [|l ls]; [discriminate|].
  injection Hn as Hl _.
  inversion Hall as [|? ? [i [Hi [_ [_ [Hmean _]]]]] _]; subst.
  exists l; split; [now left|split; [exact Hl|]].
  rewrite Hl in Hi.
  destruct i as [|[|[|[|[|i]]]]]; cbn in Hi; try discriminate Hi.
  - rewrite Hmean; [vm_compute; reflexivity|vm_compute; discriminate|vm_compute; discriminate].
  - destruct i; discriminate Hi.
Defined.

Lemma print_statistics_totals_witness :
  nth_error (w_heap sample_world) 0 = Some sample /\ table_wf sample /\
  rows sample <> [] /\
  exists os,
    w_stdout (fst (print_statistics 0 sample_world)) = w_stdout sample_world ++ os /\
    In (OInitTotal 119) os /\ In (OFinalTotal 116) os.
Proof.
  assert (Hwf : table_wf sample).
  { split; [|repeat constructor].
    repeat constructor; simpl; intuition discriminate. }
  split; [reflexivity|split; [exact Hwf|split; [discriminate|]]].
  destruct (print_statistics_totals sample_world 0 sample eq_refl Hwf
              ltac:(discriminate)) as [os [Hos [_ [_ Hin]]]].
  destruct (Hin (or_introl eq_refl)) as [H1 H2].
  exists os; split; [exact Hos|split; [exact H1|exact H2]].
Defined.

Lemma load_data_missing_exits_witness :
  find_file "missing.csv" (w_files sample_world) = None /\
  load_data "missing.csv" sample_world =
    (emit sample_world [OText "Error: missing.csv not found"], Err (SystemExit 1)) /\
  snd (main sample_world) = Err (SystemExit 1).
Proof.
  split; [reflexivity|split].
  - exact (proj1 (proj1 (load_data_missing_exits sample_world "missing.csv") eq_refl)).
  - exact (proj1 (proj2 (proj2 (load_data_missing_exits sample_world "missing.csv"))
                   eq_refl)).
Defined.

Lemma trophic_panel_membership_witness :
  nth_error (w_heap sample_world) 0 = Some sample /\ In TIME_COL (columns sample) /\
  exists img,
    find_file "trophic_levels.png"
      (w_files (fst (plot_trophic_levels 0 "trophic_levels.png" sample_world))) =
      Some (PngFile img) /\
    (forall a, In a img -> ~ In "UnknownCritter" (map s_label (ax_series a))).
Proof.
  split; [reflexivity|split; [left; reflexivity|]].
  destruct (trophic_panel_membership sample_world 0 sample "trophic_levels.png"
              eq_refl (or_introl eq_refl)) as [_ [img [Hf [_ [_ Hun]]]]].
  exists img; split; [exact Hf|].
  apply Hun; [simpl; tauto|simpl; intuition discriminate..].
Defined.

Lemma all_populations_series_witness :
  nth_error (w_heap sample_world) 0 = Some sample /\ In TIME_COL (columns sample) /\
  exists a,
    find_file "population_dynamics.png"
      (w_files (fst (plot_all_populations 0 "population_dynamics.png" sample_world))) =
      Some (PngFile [a]) /\
    length (ax_series a) = 4 /\ length (ax_legend a) = 4.
Proof.
  split; [reflexivity|split; [left; reflexivity|]].
  destruct (all_populations_series sample_world 0 sample "population_dynamics.png"
              eq_refl (or_introl eq_refl)) as [_ [a [Hf [_ [_ [_ H4]]]]]].
  exists a; split; [exact Hf|apply H4; reflexivity].
Defined.

Lemma output_order_witness :
  nth_error (w_heap sample_world) 0 = Some sample /\ rows sample <> [] /\
  In TIME_COL (columns sample) /\
  exists img,
    find_file "trophic_levels.png"
      (w_files (fst (plot_trophic_levels 0 "trophic_levels.png" sample_world))) =
      Some (PngFile img) /\
    map (fun a => map s_label (ax_series a)) img = [["Wildflowers"]; ["Deer"]; ["Fox"]].
Proof.
  split; [reflexivity|split; [discriminate|split; [left; reflexivity|]]].
  destruct (output_order sample_world 0 sample "population_dynamics.png"
              "trophic_levels.png" eq_refl ltac:(discriminate) (or_introl eq_refl))
    as [_ [_ [img [Hf Hm]]]].
  exists img; split; [exact Hf|rewrite Hm; reflexivity].
Defined.

Lemma chart_files_per_second_witness :
  find_file "ecosystem_data.csv" (w_files sample_dir) = Some (CsvFile (Some sample)) /\
  rows sample <> [] /\ In TIME_COL (columns sample) /\
  saved_files (w_stdout (fst (main (second_run sample_dir clock_c)))) =
    ["population_dynamics_1700000000.png"; "trophic_levels_1700000000.png";
     "population_dynamics_1700000001.png"; "trophic_levels_1700000001.png"].
Proof.
  split; [reflexivity|split; [discriminate|split; [left; reflexivity|]]].
  destruct (chart_files_per_second sample_dir sample clock_c eq_refl
              ltac:(discriminate) (or_introl eq_refl)) as [_ [_ [Hs _]]].
  rewrite Hs; vm_compute; reflexivity.
Defined.

Lemma print_statistics_index_error_witness :
  nth_error (w_heap (world_with [] [empty_sample] 0)) 0 = Some empty_sample /\
  snd (print_statistics 0 (world_with [] [empty_sample] 0)) = Err IndexError /\
  snd (print_statistics 0 sample_world) <> Err IndexError.
Proof.
  split; [reflexivity|split].
  - apply (proj1 (print_statistics_index_error (world_with [] [empty_sample] 0) 0
                    empty_sample eq_refl)); [reflexivity|].
    exists "Deer"; split; [right; left; reflexivity|reflexivity].
  - apply (proj2 (print_statistics_index_error sample_world 0 sample eq_refl)).
    discriminate.
Defined.

Lemma time_column_exact_name_witness :
  nth_error (w_heap (world_with [] [lower_timestep] 0)) 0 = Some lower_timestep /\
  snd (plot_all_populations 0 "population_dynamics.png"
         (world_with [] [lower_timestep] 0)) = Err (KeyError "TimeStep") /\
  exists os,
    w_stdout (fst (print_statistics 0 (world_with [] [lower_timestep] 0))) =
      w_stdout (world_with [] [lower_timestep] 0) ++ os /\
    In "timestep" (map l_name (out_lines os)).
Proof.
  split; [reflexivity|].
  destruct (time_column_exact_name (world_with [] [lower_timestep] 0) 0
              lower_timestep "population_dynamics.png" eq_refl)
    as [Hrep [_ [_ [Herr _]]]].
  split.
  - apply Herr; [simpl; intuition discriminate|].
    exists "Deer"; split; [right; left; reflexivity|discriminate].
  - apply Hrep; [discriminate|left; reflexivity|discriminate].
Defined.

(** * Further properties of the script *)

(** ** [print_statistics] on a table without rows, or without a time column *)

Lemma stat_loop_no_rows t cs w :
  rows t = [] -> incl cs (columns t) ->
  for_each cs (stat_body t) w =
  (w, if existsb (fun c => negb (is_time_col c)) cs then Err IndexError else Ok tt).
Proof.
  intros Hr; revert w; induction cs as [|c cs IH]; intros w Hincl; [reflexivity|].
  assert (Hcs : incl cs (columns t)) by (intros x Hx; apply Hincl; now right).
  simpl; unfold stat_body at 1.
  destruct (is_time_col c) eqn:Ec; simpl.
  - unfold bindM, retM; exact (IH w Hcs).
  - destruct (index_of_In c _ (Hincl c (or_introl eq_refl))) as [i [Hi _]].
    unfold bindM, stat_line, get_col, lift; rewrite Hi, Hr; reflexivity.
Qed.

Lemma print_statistics_no_rows_run w d t :
  nth_error (w_heap w) d = Some t -> rows t = [] ->
  print_statistics d w =
  (emit w (stat_header ++
     if existsb (fun c => negb (is_time_col c)) (columns t) then []
     else [OText sep80; OTimesteps 0]), Err IndexError).
Proof.
  intros Hd Hr.
  pose proof (stat_loop_no_rows t (columns t) (emit w stat_header) Hr (incl_refl _))
    as Hl.
  unfold print_statistics; rewrite (bind_deref _ _ _ _ Hd), !seq_print, !emit_emit.
  destruct (existsb _ (columns t)).
  - rewrite (bind_err _ _ _ _ _ Hl), app_nil_r; reflexivity.
  - rewrite (bind_ok _ _ _ _ _ Hl), !seq_print, !emit_emit, Hr.
    reflexivity.
Qed.

Theorem print_statistics_no_rows (w : world) (d : loc) (t : table) :
  nth_error (w_heap w) d = Some t -> rows t = [] ->
  snd (print_statistics d w) = Err IndexError /\
  w_files (fst (print_statistics d w)) = w_files w /\
  exists os,
    w_stdout (fst (print_statistics d w)) = w_stdout w ++ os /\
    out_lines os = [] /\
    (forall z, ~ In (OInitTotal z) os) /\ (forall z, ~ In (OFinalTotal z) os).
Proof.
  intros Hd Hr; rewrite (print_statistics_no_rows_run w d t Hd Hr).
  split; [reflexivity|split; [reflexivity|]].
  eexists; split; [reflexivity|].
  destruct (existsb _ (columns t)); (split; [reflexivity|]);
    split; intros z Hz; trace_cases Hz.
Qed.

Lemma filter_no_time cs :
  ~ In TIME_COL cs -> List.filter (fun c => negb (is_time_col c)) cs = cs.
Proof.
  induction cs as [|c cs IH]; intros Hn; [reflexivity|]; simpl.
  unfold is_time_col; destruct (String.eqb_spec c TIME_COL) as [->|Hne].
  - exfalso; apply Hn; now left.
  - simpl; f_equal; apply IH; intros H; apply Hn; now right.
Qed.

Theorem print_statistics_without_time_column (w : world) (d : loc) (t : table) :
  nth_error (w_heap w) d = Some t -> rows t <> [] -> ~ In "TimeStep" (columns t) ->
  snd (print_statistics d w) = Err (KeyError "TimeStep") /\
  exists os,
    w_stdout (fst (print_statistics d w)) = w_stdout w ++ os /\
    map l_name (out_lines os) = columns t /\
    In (OTimesteps (Z.of_nat (length (rows t)))) os /\
    (forall z, ~ In (OInitTotal z) os) /\ (forall z, ~ In (OFinalTotal z) os).
Proof.
  intros Hd Hne Hn.
  destruct (print_statistics_run w d t Hd Hne) as [ls [Hnames [_ Hrun]]].
  rewrite Hrun, (get_col_not_In t TIME_COL Hn); cbv zeta iota beta.
  split; [reflexivity|].
  eexists; split; [reflexivity|].
  split; [|split; [|split]].
  - rewrite !out_lines_app, out_lines_map; simpl; rewrite app_nil_r, Hnames.
    now apply filter_no_time.
  - rewrite !in_app_iff; right; right; right; now left.
  - intros z Hz; trace_cases Hz.
  - intros z Hz; trace_cases Hz.
Qed.

(** ** The totals agree with the per-species lines *)

Lemma species_cells cs r :
  List.NoDup cs -> length r = length cs ->
  map snd (List.filter (fun p => negb (is_time_col (fst p))) (combine cs r)) =
  map (fun c => match index_of c cs with Some i => nth i r 0%Z | None => 0%Z end)
      (List.filter (fun c => negb (is_time_col c)) cs).
Proof.
  revert r; induction cs as [|c cs IH]; intros [|x r] Hnd Hl;
    try discriminate; [reflexivity|].
  inversion Hnd as [|? ? Hnin Hnd']; subst.
  assert (Hext : forall c', In c' (List.filter (fun c => negb (is_time_col c)) cs) ->
    (match index_of c' (c :: cs) with Some i => nth i (x :: r) 0%Z | None => 0%Z end) =
    (match index_of c' cs with Some i => nth i r 0%Z | None => 0%Z end)).
  { intros c' Hc'; apply filter_In in Hc'; destruct Hc' as [Hc' _].
    change (index_of c' (c :: cs)) with
      (if String.eqb c' c then Some 0
       else match index_of c' cs with Some j => Some (S j) | None => None end).
    destruct (String.eqb_spec c' c) as [->|_]; [contradiction|].
    now destruct (index_of c' cs). }
  cbn [combine List.filter fst].
  destruct (is_time_col c); simpl negb; cbv iota.
  - rewrite (IH r Hnd' ltac:(simpl in Hl; lia)).
    symmetry; apply map_ext_in; exact Hext.
  - cbn [map snd]; f_equal.
    + change (index_of c (c :: cs)) with
        (if String.eqb c c then Some 0
         else match index_of c cs with Some j => Some (S j) | None => None end).
      now rewrite String.eqb_refl.
    + rewrite (IH r Hnd' ltac:(simpl in Hl; lia)).
      symmetry; apply map_ext_in; exact Hext.
Qed.

Lemma lines_at_row t ls (sel : list (list Z) -> list Z) (get : line -> Z) :
  (forall l i, index_of (l_name l) (columns t) = Some i -> line_spec t l ->
     get l = nth i (sel (rows t)) 0%Z) ->
  Forall (line_spec t) ls ->
  map get ls =
  map (fun c => match index_of c (columns t) with
                | Some i => nth i (sel (rows t)) 0%Z | None => 0%Z end)
      (map l_name ls).
Proof.
  intros Hget; induction 1 as [|l ls Hl _ IH]; [reflexivity|].
  simpl; rewrite IH; f_equal.
  destruct Hl as [i [Hi Hrest]]; rewrite Hi.
  apply Hget; [exact Hi|]; exists i; split; [exact Hi|exact Hrest].
Qed.

Lemma line_initial_cell t l i :
  rows t <> [] -> index_of (l_name l) (columns t) = Some i -> line_spec t l ->
  l_initial l = nth i (hd [] (rows t)) 0%Z.
Proof.
  intros Hne Hi [j [Hj [Hini _]]]; rewrite Hi in Hj; injection Hj as <-.
  rewrite Hini; unfold column_values; destruct (rows t); [congruence|reflexivity].
Qed.

Lemma line_final_cell t l i :
  rows t <> [] -> index_of (l_name l) (columns t) = Some i -> line_spec t l ->
  l_final l = nth i (List.last (rows t) []) 0%Z.
Proof.
  intros Hne Hi [j [Hj [_ [Hfin _]]]]; rewrite Hi in Hj; injection Hj as <-.
  rewrite Hfin; unfold column_values.
  exact (last_map_nonempty (fun r => nth i r 0%Z) (rows t) [] 0%Z Hne).
Qed.

Lemma lines_sum_total t ls r (sel : list (list Z) -> list Z) (get : line -> Z) :
  table_wf t -> In (sel (rows t)) (rows t) ->
  map l_name ls = List.filter (fun c => negb (is_time_col c)) (columns t) ->
  map get ls =
  map (fun c => match index_of c (columns t) with
                | Some i => nth i (sel (rows t)) 0%Z | None => 0%Z end)
      (map l_name ls) ->
  r = sel (rows t) ->
  sum_list (map get ls) = species_total t r.
Proof.
  intros [Hnd Hlen] Hin Hnames Hmap ->.
  rewrite Hmap, Hnames; unfold species_total.
  rewrite species_cells; [reflexivity|exact Hnd|].
  exact (proj1 (List.Forall_forall _ _) Hlen _ Hin).
Qed.

Theorem print_statistics_totals_match_lines (w : world) (d : loc) (t : table) :
  nth_error (w_heap w) d = Some t -> table_wf t -> rows t <> [] ->
  In "TimeStep" (columns t) ->
  exists os,
    w_stdout (fst (print_statistics d w)) = w_stdout w ++ os /\
    In (OInitTotal (fmt_int_0f (wrap64 (sum_list (map l_initial (out_lines os)))))) os /\
    In (OFinalTotal (fmt_int_0f (wrap64 (sum_list (map l_final (out_lines os)))))) os /\
    ((Z.abs (sum_list (map l_initial (out_lines os))) <= 2 ^ 53)%Z ->
     In (OInitTotal (sum_list (map l_initial (out_lines os)))) os) /\
    ((Z.abs (sum_list (map l_final (out_lines os))) <= 2 ^ 53)%Z ->
     In (OFinalTotal (sum_list (map l_final (out_lines os)))) os).
Proof.
  intros Hd Hwf Hne Htime.
  destruct (print_statistics_run w d t Hd Hne) as [ls [Hnames [Hspec Hrun]]].
  destruct (index_of_In TIME_COL _ Htime) as [i [Ei _]].
  assert (Eg : get_col t TIME_COL = Ok (map (fun r => nth i r 0%Z) (rows t)))
    by (unfold get_col; now rewrite Ei).
  rewrite Hrun, Eg; cbv zeta iota beta.
  assert (Hfirst : hd 0%Z (map (fun r => nth i r 0%Z) (rows t)) =
                   nth i (hd [] (rows t)) 0%Z)
    by (destruct (rows t); [congruence|reflexivity]).
  assert (Hlast : List.last (map (fun r => nth i r 0%Z) (rows t)) 0%Z =
                  nth i (List.last (rows t) []) 0%Z)
    by exact (last_map_nonempty (fun r => nth i r 0%Z) (rows t) [] 0%Z Hne).
  assert (H0 : In (hd [] (rows t)) (rows t))
    by (destruct (rows t); [congruence|now left]).
  assert (HL : In (List.last (rows t) []) (rows t)) by (now apply last_In_nonempty).
  rewrite Hfirst, Hlast, (row_total t _ i Hwf H0 Ei), (row_total t _ i Hwf HL Ei).
  eexists; split; [reflexivity|].
  assert (Hls : out_lines
    (((stat_header ++ map OLine ls ++
       [OText sep80; OTimesteps (Z.of_nat (length (rows t)))]) ++
      [OInitTotal (fmt_int_0f (wrap64 (species_total t (hd [] (rows t)))));
       OFinalTotal (fmt_int_0f (wrap64 (species_total t (List.last (rows t) []))));
       OText sep80])) = ls).
  { rewrite !out_lines_app, out_lines_map; simpl; now rewrite !app_nil_r. }
  rewrite Hls.
  rewrite (lines_sum_total t ls (hd [] (rows t)) (hd []) l_initial Hwf H0 Hnames
             (lines_at_row t ls (hd []) l_initial
                (fun l i Hi Hs => line_initial_cell t l i Hne Hi Hs) Hspec)
             eq_refl).
  rewrite (lines_sum_total t ls (List.last (rows t) []) (fun rs => List.last rs [])
             l_final Hwf HL Hnames
             (lines_at_row t ls (fun rs => List.last rs []) l_final
                (fun l i Hi Hs => line_final_cell t l i Hne Hi Hs) Hspec)
             eq_refl).
  split; [|split; [|split]].
  - rewrite !in_app_iff; right; cbn [In]; tauto.
  - rewrite !in_app_iff; right; cbn [In]; tauto.
  - intros Hb; rewrite (total_printed_exact _ Hb).
    rewrite !in_app_iff; right; cbn [In]; tauto.
  - intros Hb; rewrite (total_printed_exact _ Hb).
    rewrite !in_app_iff; right; cbn [In]; tauto.
Qed.

(** ** Each printed line lies between its minimum and maximum *)

Lemma sum_list_upper vs m :
  Forall (fun v => (v <= m)%Z) vs -> (sum_list vs <= m * Z.of_nat (length vs))%Z.
Proof. induction 1; simpl; lia. Qed.

Lemma sum_list_lower vs m :
  Forall (fun v => (m <= v)%Z) vs -> (m * Z.of_nat (length vs) <= sum_list vs)%Z.
Proof. induction 1; simpl; lia. Qed.

Lemma mean_between (q : Q) (lo hi s n : Z) :
  (0 < n)%Z -> (q * inject_Z n == inject_Z s)%Q ->
  (lo * n <= s)%Z -> (s <= hi * n)%Z ->
  (inject_Z lo <= q /\ q <= inject_Z hi)%Q.
Proof.
  intros Hn Hq Hlo Hhi.
  assert (Hn' : (0 < inject_Z n)%Q) by (change 0%Q with (inject_Z 0); rewrite <- Zlt_Qlt; exact Hn).
  split.
  - apply (Qmult_le_r _ _ _ Hn'); rewrite Hq, <- inject_Z_mult.
    rewrite <- Zle_Qle; lia.
  - apply (Qmult_le_r _ _ _ Hn'); rewrite Hq, <- inject_Z_mult.
    rewrite <- Zle_Qle; lia.
Qed.

(** The printed mean of a column lies between ten times its minimum and
    ten times its maximum, when pandas' float64 sum is exact. *)
Lemma fmt_mean_between vs :
  vs <> [] -> (sum_abs vs <= 2 ^ 53)%Z -> (Z.of_nat (length vs) <= 2 ^ 53)%Z ->
  (10 * min_Z vs <= fmt_1f (pandas_mean vs) <= 10 * max_Z vs)%Z.
Proof.
  intros Hne Hb Hn.
  destruct (max_Z_spec _ Hne) as [Hm1 Hm2].
  destruct (min_Z_spec _ Hne) as [Hn1 Hn2].
  pose proof (sum_abs_In _ _ Hm1); pose proof (sum_abs_In _ _ Hn1).
  assert (Hq : (inject_Z (min_Z vs) <= mean_Q vs /\ mean_Q vs <= inject_Z (max_Z vs))%Q).
  { apply (mean_between _ _ _ (sum_list vs) (Z.of_nat (length vs))).
    - destruct vs; [congruence|simpl; lia].
    - now apply mean_Q_spec.
    - now apply sum_list_lower.
    - now apply sum_list_upper. }
  destruct Hq as [Hq1 Hq2].
  destruct (round64_between (mean_Q vs) (min_Z vs) (max_Z vs)) as [Hr1 Hr2];
    [lia|lia|exact Hq1|exact Hq2|].
  rewrite pandas_mean_exact by assumption.
  assert (H10 : (0 <= 10)%Q) by (unfold Qle; simpl; lia).
  unfold fmt_1f; split.
  - apply round_ne_ge; rewrite inject_Z_mult, Qmult_comm.
    now apply Qmult_le_compat_r.
  - apply round_ne_le; rewrite inject_Z_mult, (Qmult_comm (inject_Z 10)).
    now apply Qmult_le_compat_r.
Qed.

Theorem print_statistics_line_bounds (w : world) (d : loc) (t : table) :
  nth_error (w_heap w) d = Some t -> rows t <> [] ->
  exists os,
    w_stdout (fst (print_statistics d w)) = w_stdout w ++ os /\
    Forall (fun l =>
      (l_min l <= l_initial l <= l_max l)%Z /\
      (l_min l <= l_final l <= l_max l)%Z /\
      ((sum_abs (col_of t (l_name l)) <= 2 ^ 53)%Z ->
       (Z.of_nat (length (rows t)) <= 2 ^ 53)%Z ->
       (10 * l_min l <= l_mean l <= 10 * l_max l)%Z))
      (out_lines os).
Proof.
  intros Hd Hne.
  destruct (print_statistics_run w d t Hd Hne) as [ls [_ [Hspec Hrun]]].
  assert (Hb : Forall (fun l =>
      (l_min l <= l_initial l <= l_max l)%Z /\
      (l_min l <= l_final l <= l_max l)%Z /\
      ((sum_abs (col_of t (l_name l)) <= 2 ^ 53)%Z ->
       (Z.of_nat (length (rows t)) <= 2 ^ 53)%Z ->
       (10 * l_min l <= l_mean l <= 10 * l_max l)%Z)) ls).
  { eapply List.Forall_impl; [|exact Hspec]; intros l Hl.
    destruct Hl as [i [Hi [Hini [Hfin [Hmean [Hmax Hmin]]]]]].
    set (vs := column_values t i) in *.
    assert (Hvs : vs <> []).
    { unfold vs, column_values; destruct (rows t); [congruence|discriminate]. }
    assert (Hlen : length vs = length (rows t)) by apply length_map.
    assert (Hcol : col_of t (l_name l) = vs) by (unfold col_of, get_col; now rewrite Hi).
    destruct (max_Z_spec _ Hvs) as [_ Hmx]; destruct (min_Z_spec _ Hvs) as [_ Hmn].
    pose proof (proj1 (List.Forall_forall _ _) Hmx) as Hmx'.
    pose proof (proj1 (List.Forall_forall _ _) Hmn) as Hmn'.
    assert (Hini' : In (l_initial l) vs).
    { rewrite Hini; destruct vs; [congruence|now left]. }
    assert (Hfin' : In (l_final l) vs).
    { rewrite Hfin; now apply last_In_nonempty. }
    rewrite Hmax, Hmin.
    split; [split; auto|split; [split; auto|]].
    intros Hs HN; rewrite Hcol in Hs; rewrite Hmean.
    apply fmt_mean_between; [exact Hvs|exact Hs|now rewrite Hlen]. }
  rewrite Hrun; cbv zeta.
  destruct (get_col t TIME_COL); (eexists; split; [reflexivity|]);
    rewrite !out_lines_app, out_lines_map; simpl; rewrite ?app_nil_r; exact Hb.
Qed.

(** ** The charts do not depend on figures left open *)

Lemma plot_all_populations_figs w d t o fs :
  nth_error (w_heap w) d = Some t ->
  plot_all_populations d o (with_figs w fs) = plot_all_populations d o w.
Proof.
  intros Hd; unfold plot_all_populations.
  rewrite (bind_deref d t _ (with_figs w fs) Hd), (bind_deref d t _ w Hd).
  unfold close_all; rewrite !seq_modify; reflexivity.
Qed.

Lemma plot_trophic_levels_figs w d t o fs :
  nth_error (w_heap w) d = Some t ->
  plot_trophic_levels d o (with_figs w fs) = plot_trophic_levels d o w.
Proof.
  intros Hd; unfold plot_trophic_levels.
  rewrite (bind_deref d t _ (with_figs w fs) Hd), (bind_deref d t _ w Hd).
  unfold close_all; rewrite !seq_modify; reflexivity.
Qed.

Theorem charts_ignore_open_figures (w : world) (d : loc) (t : table)
  (o1 o2 : string) (fs : list figure) :
  nth_error (w_heap w) d = Some t ->
  plot_all_populations d o1 (with_figs w fs) = plot_all_populations d o1 w /\
  plot_trophic_levels d o2 (with_figs w fs) = plot_trophic_levels d o2 w /\
  (In "TimeStep" (columns t) ->
     w_figs (fst (plot_all_populations d o1 w)) = [] /\
     w_figs (fst (plot_trophic_levels d o2 w)) = []).
Proof.
  intros Hd; split; [now apply plot_all_populations_figs with t|].
  split; [now apply plot_trophic_levels_figs with t|].
  intros Htime; destruct (get_col_TIME_In t Htime) as [ts Hts].
  rewrite (plot_all_populations_run w d t ts o1 Hd Hts),
          (plot_trophic_levels_run w d t ts o2 Hd Hts).
  split; reflexivity.
Qed.

(** ** A chart that raises writes nothing *)

Create HintDb quiet.

Lemma quiet_bind {A B} (m : M A) (k : A -> M B) :
  quiet m -> (forall a, quiet (k a)) -> quiet (bindM m k).
Proof.
  intros Hm Hk w; unfold bindM.
  specialize (Hm w); destruct (m w) as [w' [a|e]]; simpl in *; [|exact Hm].
  destruct (Hk a w') as [H1 H2]; rewrite H1, H2; tauto.
Qed.

Lemma quiet_if {A} (b : bool) (m1 m2 : M A) :
  quiet m1 -> quiet m2 -> quiet (if b then m1 else m2).
Proof. now destruct b. Qed.

Lemma quiet_for_each {A} (xs : list A) (body : A -> M unit) :
  (forall x, quiet (body x)) -> quiet (for_each xs body).
Proof.
  intros Hb; induction xs as [|x xs IH]; simpl.
  - intros w; split; reflexivity.
  - apply quiet_bind; auto.
Qed.

Lemma quiet_ret {A} (a : A) : quiet (retM a).
Proof. intros w; split; reflexivity. Qed.
Lemma quiet_lift {A} (r : res A) : quiet (lift r).
Proof. intros w; split; reflexivity. Qed.
Lemma quiet_modify f : quiet (modify_figs f).
Proof. intros w; split; reflexivity. Qed.
Lemma quiet_deref d : quiet (deref d).
Proof. intros w; unfold deref; destruct (nth_error (w_heap w) d); split; reflexivity. Qed.

#[local] Hint Resolve quiet_ret quiet_lift quiet_modify quiet_deref : quiet.

Lemma keeps_bind {A B} (m : M A) (k : A -> M B) :
  quiet m -> (forall a, keeps_on_error (k a)) -> keeps_on_error (bindM m k).
Proof.
  intros Hm Hk w w' e; unfold bindM.
  destruct (Hm w) as [H1 H2]; destruct (m w) as [w1 [a|e1]]; simpl in *.
  - intros H; destruct (Hk a w1 w' e H) as [H3 H4]; rewrite H3, H4; tauto.
  - intros [= <- _]; tauto.
Qed.

Lemma keeps_total {A} (m : M A) :
  (forall w, exists w' a, m w = (w', Ok a)) -> keeps_on_error m.
Proof. intros Hm w w' e H; destruct (Hm w) as [w1 [a Ha]]; congruence. Qed.

Ltac quiet_tac :=
  repeat (cbv zeta; first
    [ apply quiet_bind; [|intros ?]
    | apply quiet_for_each; intros ?
    | apply quiet_if
    | solve [eauto with quiet] ]).

Ltac keeps_tac :=
  repeat first
    [ apply keeps_bind; [solve [quiet_tac]|intros ?]
    | apply keeps_total; intros ?; do 2 eexists; reflexivity ].

Lemma plot_all_populations_keeps d o : keeps_on_error (plot_all_populations d o).
Proof.
  unfold plot_all_populations, close_all, new_figure, plot_on, legend_on; keeps_tac.
Qed.

Lemma plot_trophic_levels_keeps d o : keeps_on_error (plot_trophic_levels d o).
Proof.
  unfold plot_trophic_levels, draw_panel, close_all, new_figure, plot_on, legend_on;
    keeps_tac.
Qed.

Theorem charts_fail_without_writing (w : world) (d : loc) (o : string) (e : exn) :
  (snd (plot_all_populations d o w) = Err e ->
     w_files (fst (plot_all_populations d o w)) = w_files w /\
     w_stdout (fst (plot_all_populations d o w)) = w_stdout w) /\
  (snd (plot_trophic_levels d o w) = Err e ->
     w_files (fst (plot_trophic_levels d o w)) = w_files w /\
     w_stdout (fst (plot_trophic_levels d o w)) = w_stdout w).
Proof.
  split; intros H.
  - destruct (plot_all_populations d o w) as [w' r] eqn:E; simpl in H |- *; subst r.
    exact (plot_all_populations_keeps d o w w' e E).
  - destruct (plot_trophic_levels d o w) as [w' r] eqn:E; simpl in H |- *; subst r.
    exact (plot_trophic_levels_keeps d o w w' e E).
Qed.

(** ** The trophic chart and the time column *)

Lemma plot_loop_skip t k p cs w :
  (forall c, In c cs -> p c = false) -> for_each cs (plot_body t k p) w = (w, Ok tt).
Proof.
  revert w; induction cs as [|c cs IH]; intros w Hp; [reflexivity|].
  simpl; unfold plot_body at 1; rewrite (Hp c (or_introl eq_refl)).
  unfold bindM, retM; apply IH; intros c' Hc'; apply Hp; now right.
Qed.

Lemma in_columns_false t c : ~ In c (columns t) -> in_columns t c = false.
Proof.
  intros Hn; destruct (in_columns t c) eqn:E; [|reflexivity].
  exfalso; apply Hn; now apply in_columns_In.
Qed.

Lemma In_in_columns t c : In c (columns t) -> in_columns t c = true.
Proof.
  intros H; unfold in_columns; apply existsb_exists; exists c.
  split; [exact H|apply String.eqb_refl].
Qed.

Lemma draw_panel_skip t k g w :
  (forall c, In c g -> ~ In c (columns t)) ->
  draw_panel t k g w =
  (with_figs w (on_current (alter (fun a =>
     mk_axes (ax_series a) (List.filter legend_shown (map s_label (ax_series a)))) k)
     (w_figs w)), Ok tt).
Proof.
  intros Hg; unfold draw_panel, legend_on.
  rewrite (bind_ok _ _ _ _ _
    (plot_loop_skip t k (in_columns t) g w
       (fun c Hc => in_columns_false t c (Hg c Hc)))).
  reflexivity.
Qed.

Lemma draw_panel_err t k g w e :
  get_col t TIME_COL = Err e -> (exists c, In c g /\ In c (columns t)) ->
  exists w', draw_panel t k g w = (w', Err e).
Proof.
  intros He [c [Hcg Hct]].
  destruct (plot_loop_err t k (in_columns t) g w e He
              (ex_intro _ c (conj Hcg (In_in_columns t c Hct)))) as [w' Hw'].
  exists w'; unfold draw_panel; exact (bind_err _ _ _ _ _ Hw').
Qed.

Lemma group_present_dec t (g : list string) :
  (exists c, In c g /\ In c (columns t)) \/ (forall c, In c g -> ~ In c (columns t)).
Proof.
  destruct (existsb (in_columns t) g) eqn:E.
  - left; apply existsb_exists in E; destruct E as [c [Hc Hin]].
    exists c; split; [exact Hc|now apply in_columns_In].
  - right; intros c Hc Hin.
    assert (existsb (in_columns t) g = true)
      by (apply existsb_exists; exists c; split; [exact Hc|now apply In_in_columns]).
    congruence.
Qed.

Theorem trophic_levels_time_column (w : world) (d : loc) (t : table) (o : string) :
  nth_error (w_heap w) d = Some t ->
  ((forall c, In c (columns t) ->
      ~ In c producers /\ ~ In c herbivores /\ ~ In c predators) ->
     snd (plot_trophic_levels d o w) = Ok tt /\
     find_file o (w_files (fst (plot_trophic_levels d o w))) =
       Some (PngFile [empty_axes; empty_axes; empty_axes])) /\
  (~ In "TimeStep" (columns t) ->
     (exists c, In c (columns t) /\
        (In c producers \/ In c herbivores \/ In c predators)) ->
     snd (plot_trophic_levels d o w) = Err (KeyError "TimeStep") /\
     w_files (fst (plot_trophic_levels d o w)) = w_files w).
Proof.
  intros Hd; split.
  - intros Hnone.
    assert (Hp : forall c, In c producers -> ~ In c (columns t))
      by (intros c Hc Hin; destruct (Hnone c Hin) as [? [? ?]]; contradiction).
    assert (Hh : forall c, In c herbivores -> ~ In c (columns t))
      by (intros c Hc Hin; destruct (Hnone c Hin) as [? [? ?]]; contradiction).
    assert (Hq : forall c, In c predators -> ~ In c (columns t))
      by (intros c Hc Hin; destruct (Hnone c Hin) as [? [? ?]]; contradiction).
    unfold plot_trophic_levels; rewrite (bind_deref _ _ _ _ Hd).
    unfold close_all, new_figure, close_current; rewrite !seq_modify.
    rewrite (bind_ok _ _ _ _ _ (draw_panel_skip t 0 producers _ Hp)).
    rewrite (bind_ok _ _ _ _ _ (draw_panel_skip t 1 herbivores _ Hh)).
    rewrite (bind_ok _ _ _ _ _ (draw_panel_skip t 2 predators _ Hq)).
    split; [reflexivity|apply find_write_file].
  - intros Hn Hc.
    assert (He : get_col t TIME_COL = Err (KeyError TIME_COL))
      by (now apply get_col_not_In).
    assert (Hr : snd (plot_trophic_levels d o w) = Err (KeyError "TimeStep")).
    { unfold plot_trophic_levels; rewrite (bind_deref _ _ _ _ Hd).
      unfold close_all, new_figure; rewrite !seq_modify.
      destruct (group_present_dec t producers) as [Hp|Hp].
      { match goal with
        | |- context [bindM (draw_panel t 0 producers) ?kk ?W] =>
            destruct (draw_panel_err t 0 producers W _ He Hp) as [w' Hw'];
            now rewrite (bind_err _ kk _ _ _ Hw')
        end. }
      rewrite (bind_ok _ _ _ _ _ (draw_panel_skip t 0 producers _ Hp)).
      destruct (group_present_dec t herbivores) as [Hh|Hh].
      { match goal with
        | |- context [bindM (draw_panel t 1 herbivores) ?kk ?W] =>
            destruct (draw_panel_err t 1 herbivores W _ He Hh) as [w' Hw'];
            now rewrite (bind_err _ kk _ _ _ Hw')
        end. }
      rewrite (bind_ok _ _ _ _ _ (draw_panel_skip t 1 herbivores _ Hh)).
      destruct (group_present_dec t predators) as [Hq|Hq].
      { match goal with
        | |- context [bindM (draw_panel t 2 predators) ?kk ?W] =>
            destruct (draw_panel_err t 2 predators W _ He Hq) as [w' Hw'];
            now rewrite (bind_err _ kk _ _ _ Hw')
        end. }
      exfalso; destruct Hc as [c [Hct [Hg|[Hg|Hg]]]].
      + exact (Hp c Hg Hct).
      + exact (Hh c Hg Hct).
      + exact (Hq c Hg Hct). }
    split; [exact Hr|].
    destruct (plot_trophic_levels d o w) as [w' r] eqn:E; simpl in Hr |- *; subst r.
    exact (proj1 (plot_trophic_levels_keeps d o w w' _ E)).
Qed.

(** ** [main] stops before the charts when the statistics fail *)

Lemma main_stats_error w t e :
  find_file "ecosystem_data.csv" (w_files w) = Some (CsvFile (Some t)) ->
  (forall W, nth_error (w_heap W) (length (w_heap w)) = Some t ->
     exists os, print_statistics (length (w_heap w)) W = (emit W os, Err e) /\
                saved_files os = []) ->
  snd (main w) = Err e /\ w_files (fst (main w)) = w_files w /\
  saved_files (w_stdout (fst (main w))) = saved_files (w_stdout w).
Proof.
  intros Hf Hps.
  set (W0 := emit w main_banner).
  assert (Hl := load_data_ok_run W0 _ t Hf).
  destruct (Hps (fst (load_data "ecosystem_data.csv" W0))) as [os [Hrun Hos]];
    [rewrite Hl; apply nth_error_snoc|].
  rewrite Hl in Hrun; cbn [fst] in Hrun.
  unfold main; rewrite !seq_print, emit_emit; fold W0.
  rewrite (bind_ok _ _ _ _ _ Hl), (bind_err _ _ _ _ _ Hrun).
  cbn [fst snd]; unfold emit, W0, emit; cbn [w_files w_stdout].
  split; [reflexivity|split; [reflexivity|]].
  rewrite !saved_files_app, Hos; simpl; now rewrite !app_nil_r.
Qed.

Theorem main_stops_before_charts (w : world) (t : table) :
  find_file "ecosystem_data.csv" (w_files w) = Some (CsvFile (Some t)) ->
  (rows t = [] ->
     snd (main w) = Err IndexError /\ w_files (fst (main w)) = w_files w /\
     saved_files (w_stdout (fst (main w))) = saved_files (w_stdout w)) /\
  (rows t <> [] -> ~ In "TimeStep" (columns t) ->
     snd (main w) = Err (KeyError "TimeStep") /\ w_files (fst (main w)) = w_files w /\
     saved_files (w_stdout (fst (main w))) = saved_files (w_stdout w)).
Proof.
  intros Hf; split.
  - intros Hr; apply (main_stats_error w t IndexError Hf).
    intros W Hd; rewrite (print_statistics_no_rows_run W _ t Hd Hr).
    eexists; split; [reflexivity|].
    rewrite saved_files_app; destruct (existsb _ (columns t)); reflexivity.
  - intros Hne Hn; apply (main_stats_error w t (KeyError TIME_COL) Hf).
    intros W Hd.
    destruct (print_statistics_run W _ t Hd Hne) as [ls [_ [_ Hrun]]].
    rewrite Hrun, (get_col_not_In t TIME_COL Hn); cbv zeta iota beta.
    eexists; split; [reflexivity|].
    rewrite !saved_files_app, saved_files_map_OLine; reflexivity.
Qed.

(** ** A complete run of [main] *)

Theorem main_success_trace (w : world) (t : table) :
  find_file "ecosystem_data.csv" (w_files w) = Some (CsvFile (Some t)) ->
  rows t <> [] -> In "TimeStep" (columns t) ->
  let n := py_int (w_clock w) in
  exists stats,
    main w =
    (mk_world
       (write_file (troph_file n) (PngFile (trophic_levels_image t))
          (write_file (pop_file n) (PngFile (all_populations_image t)) (w_files w)))
       (w_heap w ++ [t]) []
       (w_stdout w ++ main_banner ++
        [OLoaded (Z.of_nat (length (rows t))) (Z.of_nat (length (columns t)) - 1)] ++
        stats ++
        [OText "Generating visualizations..."; OSaved (pop_file n);
         OSaved (troph_file n); OText "Visualization complete!";
         OText "Check the generated PNG files for plots."])
       (w_clock w), Ok tt) /\
    map l_name (out_lines stats) = nontime_columns t /\
    In (OTimesteps (Z.of_nat (length (rows t)))) stats /\
    saved_files stats = [].
Proof.
  intros Hf Hne Htime n.
  destruct (get_col_TIME_In t Htime) as [ts Hts].
  set (W0 := emit w main_banner).
  assert (Hl := load_data_ok_run W0 _ t Hf).
  set (W1 := fst (load_data "ecosystem_data.csv" W0)).
  assert (Hd : nth_error (w_heap W1) (length (w_heap w)) = Some t)
    by (unfold W1; rewrite Hl; apply nth_error_snoc).
  destruct (print_statistics_run W1 _ t Hd Hne) as [ls [Hnames [_ Hps]]].
  rewrite Hts in Hps; cbv zeta iota beta in Hps.
  unfold W1 in Hps, Hd; rewrite Hl in Hps, Hd; cbn [fst] in Hps, Hd.
  unfold main; rewrite !seq_print, emit_emit; fold W0.
  rewrite (bind_ok _ _ _ _ _ Hl), (bind_ok _ _ _ _ _ Hps).
  rewrite bind_get_time; cbv zeta beta.
  rewrite seq_print.
  match goal with
  | |- context [bindM (plot_all_populations _ ?o) _ ?W] =>
      rewrite (bind_ok _ _ _ _ _ (plot_all_populations_run W _ t ts o Hd Hts))
  end.
  match goal with
  | |- context [bindM (plot_trophic_levels _ ?o) _ ?W] =>
      rewrite (bind_ok _ _ _ _ _ (plot_trophic_levels_run W _ t ts o Hd Hts))
  end.
  rewrite seq_print, print_run.
  exists ((stat_header ++ map OLine ls ++
           [OText sep80; OTimesteps (Z.of_nat (length (rows t)))]) ++
          [OInitTotal (fmt_int_0f (wrap64 (int64_sum (hd [] (rows t)) - hd 0%Z ts)));
           OFinalTotal (fmt_int_0f (wrap64
             (int64_sum (List.last (rows t) []) - List.last ts 0%Z)));
           OText sep80]).
  split; [|split; [|split]].
  - unfold after_chart, all_populations_image, trophic_levels_image.
    rewrite (get_col_of t TIME_COL ts Hts).
    apply (f_equal2 pair); [|reflexivity].
    unfold W0, emit; cbn [w_files w_heap w_figs w_stdout w_clock].
    f_equal.
    rewrite <- !app_assoc; reflexivity.
  - rewrite !out_lines_app, out_lines_map; cbn [out_lines stat_header app].
    rewrite !app_nil_r; exact Hnames.
  - rewrite !in_app_iff; cbn [In]; tauto.
  - rewrite !saved_files_app, saved_files_map_OLine; reflexivity.
Qed.

(** ** The timestamp of the chart names *)

Theorem timestamp_whole_seconds (q : Q) :
  (0 <= q)%Q -> (inject_Z (py_int q) <= q /\ q < inject_Z (py_int q + 1))%Q.
Proof.
  destruct q as [a b]; unfold py_int, Qle, Qlt; cbn [Qnum Qden inject_Z].
  rewrite Z.mul_1_r; intros Ha; assert (Ha' : (0 <= a)%Z) by lia.
  rewrite Z.quot_div_nonneg by lia.
  pose proof (Z.div_mod a (Zpos b) ltac:(lia)) as Hdm.
  pose proof (Z.mod_pos_bound a (Zpos b) ltac:(lia)) as Hb.
  split; lia.
Qed.

(** * Witnesses of the further properties *)

Lemma print_statistics_no_rows_witness :
  nth_error (w_heap (world_with [] [empty_sample] 0)) 0 = Some empty_sample /\
  rows empty_sample = [] /\
  snd (print_statistics 0 (world_with [] [empty_sample] 0)) = Err IndexError.
Proof.
  split; [reflexivity|split; [reflexivity|]].
  exact (proj1 (print_statistics_no_rows (world_with [] [empty_sample] 0) 0
                  empty_sample eq_refl eq_refl)).
Defined.

Lemma print_statistics_without_time_column_witness :
  nth_error (w_heap (world_with [] [lower_timestep] 0)) 0 = Some lower_timestep /\
  rows lower_timestep <> [] /\ ~ In "TimeStep" (columns lower_timestep) /\
  snd (print_statistics 0 (world_with [] [lower_timestep] 0)) =
    Err (KeyError "TimeStep").
Proof.
  assert (Hn : ~ In "TimeStep" (columns lower_timestep))
    by (simpl; intuition discriminate).
  split; [reflexivity|split; [discriminate|split; [exact Hn|]]].
  exact (proj1 (print_statistics_without_time_column (world_with [] [lower_timestep] 0)
                  0 lower_timestep eq_refl ltac:(discriminate) Hn)).
Defined.

Lemma print_statistics_totals_match_lines_witness :
  nth_error (w_heap sample_world) 0 = Some sample /\ table_wf sample /\
  rows sample <> [] /\ In "TimeStep" (columns sample) /\
  exists os,
    w_stdout (fst (print_statistics 0 sample_world)) = w_stdout sample_world ++ os /\
    In (OInitTotal (fmt_int_0f (wrap64 (sum_list (map l_initial (out_lines os)))))) os /\
    In (OFinalTotal (fmt_int_0f (wrap64 (sum_list (map l_final (out_lines os)))))) os.
Proof.
  assert (Hwf : table_wf sample).
  { split; [|repeat constructor].
    repeat constructor; simpl; intuition discriminate. }
  split; [reflexivity|split; [exact Hwf|split; [discriminate|split; [left; reflexivity|]]]].
  destruct (print_statistics_totals_match_lines sample_world 0 sample eq_refl Hwf
              ltac:(discriminate) (or_introl eq_refl)) as [os [Hos [Hi [Hf _]]]].
  exists os; split; [exact Hos|split; [exact Hi|exact Hf]].
Defined.

Lemma print_statistics_line_bounds_witness :
  nth_error (w_heap sample_world) 0 = Some sample /\ rows sample <> [] /\
  exists os,
    w_stdout (fst (print_statistics 0 sample_world)) = w_stdout sample_world ++ os /\
    Forall (fun l => (l_min l <= l_initial l <= l_max l)%Z) (out_lines os).
Proof.
  split; [reflexivity|split; [discriminate|]].
  destruct (print_statistics_line_bounds sample_world 0 sample eq_refl
              ltac:(discriminate)) as [os [Hos Hb]].
  exists os; split; [exact Hos|].
  eapply List.Forall_impl; [|exact Hb]; intros l H; apply H.
Defined.

Lemma charts_ignore_open_figures_witness :
  nth_error (w_heap sample_world) 0 = Some sample /\
  plot_trophic_levels 0 "trophic_levels.png"
    (with_figs sample_world [[empty_axes]; [empty_axes; empty_axes]]) =
  plot_trophic_levels 0 "trophic_levels.png" sample_world.
Proof.
  split; [reflexivity|].
  exact (proj1 (proj2 (charts_ignore_open_figures sample_world 0 sample
                         "population_dynamics.png" "trophic_levels.png"
                         [[empty_axes]; [empty_axes; empty_axes]] eq_refl))).
Defined.

Lemma charts_fail_without_writing_witness :
  snd (plot_all_populations 0 "population_dynamics.png"
         (world_with [("ecosystem_data.csv", CsvFile (Some lower_timestep))]
                     [lower_timestep] 0)) = Err (KeyError "TimeStep") /\
  w_files (fst (plot_all_populations 0 "population_dynamics.png"
         (world_with [("ecosystem_data.csv", CsvFile (Some lower_timestep))]
                     [lower_timestep] 0))) =
    [("ecosystem_data.csv", CsvFile (Some lower_timestep))].
Proof.
  assert (He : snd (plot_all_populations 0 "population_dynamics.png"
         (world_with [("ecosystem_data.csv", CsvFile (Some lower_timestep))]
                     [lower_timestep] 0)) = Err (KeyError "TimeStep"))
    by reflexivity.
  split; [exact He|].
  exact (proj1 (proj1 (charts_fail_without_writing
    (world_with [("ecosystem_data.csv", CsvFile (Some lower_timestep))]
                [lower_timestep] 0) 0 "population_dynamics.png"
    (KeyError "TimeStep")) He)).
Defined.

Lemma trophic_levels_time_column_witness :
  nth_error (w_heap (world_with [] [lower_timestep] 0)) 0 = Some lower_timestep /\
  snd (plot_trophic_levels 0 "trophic_levels.png" (world_with [] [lower_timestep] 0)) =
    Err (KeyError "TimeStep").
Proof.
  split; [reflexivity|].
  apply (proj2 (trophic_levels_time_column (world_with [] [lower_timestep] 0) 0
                  lower_timestep "trophic_levels.png" eq_refl)).
  - simpl; intuition discriminate.
  - exists "Deer"; split; [right; left; reflexivity|right; left; left; reflexivity].
Defined.

Lemma main_stops_before_charts_witness :
  find_file "ecosystem_data.csv"
    (w_files (world_with [("ecosystem_data.csv", CsvFile (Some empty_sample))] [] 0)) =
    Some (CsvFile (Some empty_sample)) /\
  snd (main (world_with [("ecosystem_data.csv", CsvFile (Some empty_sample))] [] 0)) =
    Err IndexError.
Proof.
  split; [reflexivity|].
  exact (proj1 (proj1 (main_stops_before_charts
    (world_with [("ecosystem_data.csv", CsvFile (Some empty_sample))] [] 0)
    empty_sample eq_refl) eq_refl)).
Defined.

Lemma main_success_trace_witness :
  find_file "ecosystem_data.csv" (w_files sample_dir) = Some (CsvFile (Some sample)) /\
  rows sample <> [] /\ In "TimeStep" (columns sample) /\
  find_file (pop_file (py_int clock_a)) (w_files (fst (main sample_dir))) =
    Some (PngFile (all_populations_image sample)).
Proof.
  split; [reflexivity|split; [discriminate|split; [left; reflexivity|]]].
  destruct (main_success_trace sample_dir sample eq_refl ltac:(discriminate)
              (or_introl eq_refl)) as [stats [Hm _]].
  rewrite Hm; cbn [fst w_files].
  rewrite find_write_file_ne by apply pop_troph_ne.
  apply find_write_file.
Defined.

Lemma timestamp_whole_seconds_witness :
  (0 <= clock_a)%Q /\ (inject_Z 1700000000 <= clock_a < inject_Z 1700000001)%Q.
Proof.
  assert (H0 : (0 <= clock_a)%Q) by (unfold Qle; simpl; lia).
  split; [exact H0|].
  exact (timestamp_whole_seconds clock_a H0).
Defined.
